(** * Smart Tip Calculator: the derived-value computation and its helpers

    A shallow embedding of the TypeScript component [TipCalculatorApp] and of
    the helpers [parseToNumber], [safeNumber], [clamp] and [guessCurrency].

    JavaScript numbers are IEEE-754 binary64 values.  The program is written
    once, over an interface [JSNumber] that lists the number operations the
    source uses, and the interface has two instances:

    - [xnum]: exact rationals in canonical form, extended with [+Infinity],
      [-Infinity] and [NaN].  Finite results are not rounded and never
      overflow.  It carries statements whose content does not depend on
      rounding: what the parser keeps, the defaults of the fields, the
      handlers, the comparison of the two versions.
    - [float]: Rocq's primitive binary64 floats, whose [+ - * /] are the
      operations a JavaScript engine performs.  This is the arithmetic the
      code runs on.  The statements on the amounts the component computes
      (the accounting identity, the rounding modes, the signs, the number
      of people, the effective tip percentage) are on this instance and
      hold for every state, overflow and [NaN] included, and every
      counterexample is evaluated on it.

    The source holds two versions of the component, [V1.TipCalculatorApp]
    and [V2.TipCalculatorApp]; the helpers are the same in both, except for
    [clamp], which only the second has.  The component is modelled by the
    values it computes on a render from its state; the markup that displays
    them is not.

    Strings are sequences of code units below 256. *)

From Stdlib Require Import Bool List String Ascii ZArith NArith Lia.
From Stdlib Require Import QArith Qcanon Qround Lqa.
From Stdlib Require Import PrimFloat SpecFloat FloatOps FloatAxioms.
From Stdlib Require DecimalString DecimalN DecimalPos.
Import ListNotations.

Set Implicit Arguments.

(* ------------------------------------------------------------------ *)
(** ** Strings and the regular expression of [parseToNumber] *)

Definition code (c : ascii) : N := N_of_ascii c.

Definition in_range (lo hi : N) (c : ascii) : bool :=
  ((lo <=? code c) && (code c <=? hi))%N.

(** [[0-9]] *)
Definition is_digit (c : ascii) : bool := in_range 48 57 c.

(** The character class [[^0-9.\-]] of the source's regular expression,
    negated: the characters that [replace] keeps. *)
Definition kept_by_regex (c : ascii) : bool :=
  is_digit c || (code c =? 46)%N || (code c =? 45)%N.

Fixpoint filter_string (f : ascii -> bool) (s : string) : string :=
  match s with
  | EmptyString => EmptyString
  | String c s' =>
      if f c then String c (filter_string f s') else filter_string f s'
  end.

(** [v.replace(/[^0-9.\-]/g, "")] *)
Definition replace_non_numeric (v : string) : string :=
  filter_string kept_by_regex v.

(** [!v] for a string: only the empty string is falsy. *)
Definition string_falsy (v : string) : bool :=
  match v with EmptyString => true | _ => false end.

(* ------------------------------------------------------------------ *)
(** ** The grammar of [Number(string)] (ECMAScript StringToNumber) *)

(** The outcome of reading a string as a StringNumericLiteral: no parse, a
    signed [Infinity], or the mathematical value (-1)^neg * m * 10^e. *)
Inductive StrNumericLiteral : Type :=
| LitNaN
| LitInfinity (neg : bool)
| LitDecimal (neg : bool) (m : N) (e : Z).

(** WhiteSpace and LineTerminator code units below 256:
    TAB, LF, VT, FF, CR, SP, NBSP. *)
Definition is_StrWhiteSpaceChar (c : ascii) : bool :=
  in_range 9 13 c || (code c =? 32)%N || (code c =? 160)%N.

Fixpoint drop_while (f : ascii -> bool) (s : list ascii) : list ascii :=
  match s with
  | c :: s' => if f c then drop_while f s' else s
  | [] => []
  end.

Definition trim (s : list ascii) : list ascii :=
  rev (drop_while is_StrWhiteSpaceChar
         (rev (drop_while is_StrWhiteSpaceChar s))).

(** The value of [c] as a digit in [radix] (2, 8, 10 or 16). *)
Definition digit_of (radix : N) (c : ascii) : option N :=
  let d :=
    if is_digit c then Some (code c - 48)%N
    else if in_range 97 102 c then Some (code c - 87)%N
    else if in_range 65 70 c then Some (code c - 55)%N
    else None in
  match d with
  | Some n => if (n <? radix)%N then Some n else None
  | None => None
  end.

(** Reads the longest prefix of digits: the accumulated value, the number of
    digits read and the rest of the input. *)
Fixpoint scan_digits (radix acc : N) (n : nat) (s : list ascii)
  : N * nat * list ascii :=
  match s with
  | c :: s' =>
      match digit_of radix c with
      | Some d => scan_digits radix (acc * radix + d) (S n) s'
      | None => (acc, n, s)
      end
  | [] => (acc, n, [])
  end.

Definition is_char (n : N) (c : ascii) : bool := (code c =? n)%N.

(** ExponentPart, optional: [Some 0] when absent, [None] when malformed.
    The exponent must end the input. *)
Definition ExponentPart (s : list ascii) : option Z :=
  match s with
  | [] => Some 0%Z
  | c :: s1 =>
      if is_char 101 c || is_char 69 c then
        let '(neg, s2) :=
          match s1 with
          | d :: s2 =>
              if is_char 45 d then (true, s2)
              else if is_char 43 d then (false, s2)
              else (false, s1)
          | [] => (false, s1)
          end in
        match scan_digits 10 0 0 s2 with
        | (_, O, _) => None
        | (v, S _, []) => Some (if neg then (- Z.of_N v)%Z else Z.of_N v)
        | (_, S _, _ :: _) => None
        end
      else None
  end.

Definition Infinity_chars : list ascii := list_ascii_of_string "Infinity".

(** StrUnsignedDecimalLiteral:
    [Infinity], [digits . digits? exp?], [. digits exp?], [digits exp?]. *)
Definition StrUnsignedDecimalLiteral (neg : bool) (s : list ascii)
  : StrNumericLiteral :=
  if list_eq_dec ascii_dec s Infinity_chars then LitInfinity neg else
  let '(ip, ni, r1) := scan_digits 10 0 0 s in
  let '(m, nf, r2) :=
    match r1 with
    | c :: r => if is_char 46 c then scan_digits 10 ip 0 r else (ip, O, r1)
    | [] => (ip, O, r1)
    end in
  match (ni + nf)%nat with
  | O => LitNaN
  | S _ =>
      match ExponentPart r2 with
      | Some e => LitDecimal neg m (e - Z.of_nat nf)
      | None => LitNaN
      end
  end.

(** NonDecimalIntegerLiteral: [0x], [0o], [0b] (either case) followed by at
    least one digit of the radix, and nothing else. *)
Definition NonDecimalIntegerLiteral (s : list ascii) : option N :=
  match s with
  | z :: x :: ds =>
      let radix :=
        if is_char 120 x || is_char 88 x then Some 16%N
        else if is_char 111 x || is_char 79 x then Some 8%N
        else if is_char 98 x || is_char 66 x then Some 2%N
        else None in
      match is_char 48 z, radix with
      | true, Some r =>
          match scan_digits r 0 0 ds with
          | (v, S _, []) => Some v
          | _ => None
          end
      | _, _ => None
      end
  | _ => None
  end.

(** StringToNumber up to the conversion of the mathematical value. *)
Definition StringToNumber (v : string) : StrNumericLiteral :=
  match trim (list_ascii_of_string v) with
  | [] => LitDecimal false 0 0
  | (c :: s') as s =>
      match NonDecimalIntegerLiteral s with
      | Some n => LitDecimal false n 0
      | None =>
          if is_char 45 c then StrUnsignedDecimalLiteral true s'
          else if is_char 43 c then StrUnsignedDecimalLiteral false s'
          else StrUnsignedDecimalLiteral false s
      end
  end.

(* ------------------------------------------------------------------ *)
(** ** The number operations the source uses *)

(** One method per operation of the source: [Number(...)] (through
    [of_literal]), the arithmetic operators, [Math.max], [Math.min],
    [Math.floor], [Math.round], the comparison [x > y], the truthiness test
    of [x || y], [Number.isFinite] and strict equality [x === y]. *)
Class JSNumber (num : Type) : Type := {
  of_literal : StrNumericLiteral -> num;
  js_add : num -> num -> num;
  js_sub : num -> num -> num;
  js_mul : num -> num -> num;
  js_div : num -> num -> num;
  Math_max : num -> num -> num;
  Math_min : num -> num -> num;
  Math_floor : num -> num;
  Math_round : num -> num;
  js_gt : num -> num -> bool;
  ToBoolean : num -> bool;
  Number_isFinite : num -> bool;
  strict_eq : num -> num -> bool
}.

Declare Scope js_scope.
Delimit Scope js_scope with js.
Infix "+" := js_add : js_scope.
Infix "-" := js_sub : js_scope.
Infix "*" := js_mul : js_scope.
Infix "/" := js_div : js_scope.
Infix ">" := js_gt : js_scope.
Infix "===" := strict_eq (at level 70, no associativity) : js_scope.

(** A non-negative integer literal of the source text, such as [0], [1] or
    [100]. *)
Definition lit {num} `{JSNumber num} (n : N) : num :=
  of_literal (LitDecimal false n 0).

(** [Number.MAX_SAFE_INTEGER], 2^53 - 1. *)
Definition Number_MAX_SAFE_INTEGER {num} `{JSNumber num} : num :=
  lit 9007199254740991.

(** [x || y] on numbers. *)
Definition js_or {num} `{JSNumber num} (x y : num) : num :=
  if ToBoolean x then x else y.

(* ------------------------------------------------------------------ *)
(** ** Instance 1: exact extended rationals *)

(** Arithmetic without rounding and without overflow: [180 * (17.5 / 100)]
    is 31.5 here and 31.499999999999996 on binary64, and
    [1000 * (1e308 / 100)] is a finite number here and [Infinity] there. *)
Inductive xnum : Type :=
| Fin (q : Qc)
| PInf
| NInf
| NaN.

Definition Zc (z : Z) : Qc := Q2Qc (inject_Z z).

(** 10^e as a rational. *)
Definition pow10 (e : Z) : Q :=
  match e with
  | Z0 => 1
  | Zpos p => inject_Z (10 ^ Zpos p)
  | Zneg p => 1 # Z.to_pos (10 ^ Zpos p)
  end.

Definition x_of_literal (l : StrNumericLiteral) : xnum :=
  match l with
  | LitNaN => NaN
  | LitInfinity neg => if neg then NInf else PInf
  | LitDecimal neg m e =>
      let v := Q2Qc (inject_Z (Z.of_N m) * pow10 e) in
      Fin (if neg then (- v)%Qc else v)
  end.

(** The sign of a value that is not [NaN]. *)
Definition x_sign (x : xnum) : comparison :=
  match x with
  | Fin q => (q ?= 0)%Qc
  | PInf => Gt
  | NInf => Lt
  | NaN => Eq
  end.

Definition x_of_sign (c : comparison) : xnum :=
  match c with Gt => PInf | Lt => NInf | Eq => NaN end.

Definition x_add (x y : xnum) : xnum :=
  match x, y with
  | Fin a, Fin b => Fin (a + b)%Qc
  | NaN, _ | _, NaN => NaN
  | PInf, NInf | NInf, PInf => NaN
  | PInf, _ | _, PInf => PInf
  | NInf, _ | _, NInf => NInf
  end.

Definition x_sub (x y : xnum) : xnum :=
  match x, y with
  | Fin a, Fin b => Fin (a - b)%Qc
  | NaN, _ | _, NaN => NaN
  | PInf, PInf | NInf, NInf => NaN
  | PInf, _ | _, NInf => PInf
  | NInf, _ | _, PInf => NInf
  end.

Definition sign_mul (c d : comparison) : comparison :=
  match c, d with
  | Eq, _ | _, Eq => Eq
  | Gt, Gt | Lt, Lt => Gt
  | Gt, Lt | Lt, Gt => Lt
  end.

Definition x_mul (x y : xnum) : xnum :=
  match x, y with
  | Fin a, Fin b => Fin (a * b)%Qc
  | NaN, _ | _, NaN => NaN
  | _, _ => x_of_sign (sign_mul (x_sign x) (x_sign y))
  end.

(** Division.  The sign of a zero is not tracked, so a finite value divided
    by zero takes the sign of the dividend; the program never divides by
    zero (see [safePeople] and the guard on [tipBase]). *)
Definition x_div (x y : xnum) : xnum :=
  match x, y with
  | Fin a, Fin b =>
      if Qeq_bool b 0 then x_of_sign (a ?= 0)%Qc else Fin (a / b)%Qc
  | NaN, _ | _, NaN => NaN
  | Fin _, _ => Fin 0%Qc
  | _, Fin b =>
      match (b ?= 0)%Qc with
      | Lt => x_of_sign (sign_mul (x_sign x) Lt)
      | _ => x
      end
  | _, _ => NaN
  end.

(** [x <= y] on values that are not [NaN]. *)
Definition x_leb (x y : xnum) : bool :=
  match x, y with
  | Fin a, Fin b => Qle_bool a b
  | NInf, _ | _, PInf => true
  | _, _ => false
  end.

Definition x_is_nan (x : xnum) : bool :=
  match x with NaN => true | _ => false end.

Definition x_max (x y : xnum) : xnum :=
  if x_is_nan x || x_is_nan y then NaN
  else if x_leb x y then y else x.

Definition x_min (x y : xnum) : xnum :=
  if x_is_nan x || x_is_nan y then NaN
  else if x_leb x y then x else y.

Definition x_floor (x : xnum) : xnum :=
  match x with
  | Fin q => Fin (Zc (Qfloor q))
  | _ => x
  end.

(** [Math.round]: the nearest integer, a tie going towards [+Infinity]. *)
Definition x_round (x : xnum) : xnum :=
  match x with
  | Fin q => Fin (Zc (Qfloor (q + (1 # 2))))
  | _ => x
  end.

Definition x_gt (x y : xnum) : bool :=
  negb (x_is_nan x || x_is_nan y) && negb (x_leb x y).

Definition x_truthy (x : xnum) : bool :=
  match x with
  | Fin q => negb (Qeq_bool q 0)
  | NaN => false
  | _ => true
  end.

Definition x_isFinite (x : xnum) : bool :=
  match x with Fin _ => true | _ => false end.

Definition x_eq (x y : xnum) : bool :=
  match x, y with
  | Fin a, Fin b => Qeq_bool a b
  | PInf, PInf | NInf, NInf => true
  | _, _ => false
  end.

#[global] Instance xnum_JSNumber : JSNumber xnum := {
  of_literal := x_of_literal;
  js_add := x_add;
  js_sub := x_sub;
  js_mul := x_mul;
  js_div := x_div;
  Math_max := x_max;
  Math_min := x_min;
  Math_floor := x_floor;
  Math_round := x_round;
  js_gt := x_gt;
  ToBoolean := x_truthy;
  Number_isFinite := x_isFinite;
  strict_eq := x_eq
}.

(* ------------------------------------------------------------------ *)
(** ** Instance 2: binary64 *)

(** The binary64 value nearest to (-1)^neg * m * 10^e, ties to even.  A
    negative exponent is a division: the quotient is taken with more bits
    than the format keeps and a sticky bit, and then rounded once. *)
Definition SF_of_decimal (neg : bool) (m : N) (e : Z) : spec_float :=
  let s (z : Z) := if neg then Z.opp z else z in
  match m with
  | N0 => S754_zero neg
  | Npos _ =>
      if (0 <=? e)%Z then
        binary_normalize prec emax (s (Z.of_N m * 10 ^ e)%Z) 0 neg
      else
        let q := (10 ^ (- e))%Z in
        let k := (Z.log2 q + 58)%Z in
        let p := (Z.of_N m * 2 ^ k)%Z in
        let sticky := if (p mod q =? 0)%Z then 0%Z else 1%Z in
        binary_normalize prec emax (s (2 * (p / q) + sticky)%Z) (- k - 1) neg
  end.

Definition f_of_literal (l : StrNumericLiteral) : float :=
  match l with
  | LitNaN => nan
  | LitInfinity neg => if neg then neg_infinity else infinity
  | LitDecimal neg m e => SF2Prim (SF_of_decimal neg m e)
  end.

(** [Math.max] and [Math.min]: [NaN] if an argument is; [+0] is larger than
    [-0]. *)
Definition f_max (x y : float) : float :=
  if is_nan x || is_nan y then nan
  else if (x <? y)%float then y
  else if (y <? x)%float then x
  else if get_sign x then y else x.

Definition f_min (x y : float) : float :=
  if is_nan x || is_nan y then nan
  else if (x <? y)%float then x
  else if (y <? x)%float then y
  else if get_sign x then x else y.

(** The binary64 value of the integer [z]; exact when [|z| <= 2^53]. *)
Definition Z2float (z : Z) : float :=
  SF2Prim (binary_normalize prec emax z 0 false).

(** [Math.floor]: the largest integer that is not above [x].  A finite,
    non-zero [x] is [(-1)^s * m * 2^e]; with [0 <= e] it is an integer
    already, and otherwise the integer is [floor (+-m / 2^(-e))], which has
    at most 53 bits.  Zeros, infinities and [NaN] are returned as they
    are. *)
Definition f_floor (x : float) : float :=
  match Prim2SF x with
  | S754_finite s m e =>
      if (0 <=? e)%Z then x
      else Z2float (cond_Zopp s (Zpos m) / 2 ^ (- e))
  | _ => x
  end.

(** [Math.round]: the integer nearest to [x], a tie going towards
    [+Infinity], that is [floor (x + 1/2)] computed without rounding; the
    result is [-0] for [-0] and for [-0.5 <= x < 0]. *)
Definition f_round (x : float) : float :=
  match Prim2SF x with
  | S754_finite s m e =>
      if (0 <=? e)%Z then x
      else
        let z := ((2 * cond_Zopp s (Zpos m) + 2 ^ (- e)) / 2 ^ (- e + 1))%Z in
        if (z =? 0)%Z then (if s then neg_zero else zero) else Z2float z
  | _ => x
  end.

Definition f_truthy (x : float) : bool := negb (is_nan x || is_zero x).

#[global] Instance float_JSNumber : JSNumber float := {
  of_literal := f_of_literal;
  js_add := PrimFloat.add;
  js_sub := PrimFloat.sub;
  js_mul := PrimFloat.mul;
  js_div := PrimFloat.div;
  Math_max := f_max;
  Math_min := f_min;
  Math_floor := f_floor;
  Math_round := f_round;
  js_gt := fun x y => (y <? x)%float;
  ToBoolean := f_truthy;
  Number_isFinite := is_finite;
  strict_eq := PrimFloat.eqb
}.

(* ------------------------------------------------------------------ *)
(** ** The program *)

Definition presets : list N := [12; 15; 18; 20; 22; 25]%N.

(** The [id]s of [roundingModes]. *)
Module Rounding.
Inductive id : Type := none | tip | total | perPerson.
End Rounding.

(** The component's state: one field per [useState] that the computation
    reads ([dark] and [copied] only drive the presentation). *)
Record State (num : Type) : Type := {
  bill : string;
  tipPercent : num;
  people : num;
  taxPercent : num;
  includeTaxInTip : bool;
  rounding : Rounding.id
}.

(** The values the component computes on a render and displays. *)
Record Derived (num : Type) : Type := {
  numBill : num;
  tax : num;
  tipBase : num;
  rawTip : num;
  rawTotal : num;
  safePeople : num;
  rawPerPerson : num;
  tip : num;
  total : num;
  perPerson : num;
  effectiveTipPercent : num
}.

Section Program.
Context {num : Type} `{JSNumber num}.
Local Open Scope js_scope.

(** [Number(v)] for a string [v]. *)
Definition Number (v : string) : num := of_literal (StringToNumber v).

Definition parseToNumber (v : string) : num :=
  if string_falsy v then lit 0 else
  let cleaned := replace_non_numeric v in
  let n := Number cleaned in
  if Number_isFinite n then n else lit 0.

Definition safeNumber (v : string) (fallback : num) : num :=
  let n := Number v in
  if Number_isFinite n then n else fallback.

(** The function passed to [useMemo]; both versions of the component
    contain it with the same text.  Every variable it reads is in the
    dependency list, so the memoised value is the value of the function on
    the current render. *)
Definition useMemo_rounding (rounding : Rounding.id)
    (rawTip rawTotal rawPerPerson numBill tax safePeople : num)
  : num * num * num :=
  let tip := rawTip in
  let total := rawTotal in
  let perPerson := rawPerPerson in
  match rounding with
  | Rounding.tip =>
      let tip := Math_round tip in
      let total := numBill + tax + tip in
      let perPerson := total / safePeople in
      (tip, total, perPerson)
  | Rounding.total =>
      let total := Math_round total in
      let tip := Math_max (lit 0) (total - (numBill + tax)) in
      let perPerson := total / safePeople in
      (tip, total, perPerson)
  | Rounding.perPerson =>
      let perPerson := Math_round perPerson in
      let total := perPerson * safePeople in
      let tip := Math_max (lit 0) (total - (numBill + tax)) in
      (tip, total, perPerson)
  | Rounding.none => (tip, total, perPerson)
  end.

(** *** Event handlers *)

Definition initial_state : State num :=
  {| bill := ""; tipPercent := lit 18; people := lit 1;
     taxPercent := lit 0; includeTaxInTip := false;
     rounding := Rounding.none |}.

(** [onChange] of the bill field: [setBill(e.target.value)]. *)
Definition setBill (v : string) (st : State num) : State num :=
  {| bill := v; tipPercent := tipPercent st; people := people st;
     taxPercent := taxPercent st; includeTaxInTip := includeTaxInTip st;
     rounding := rounding st |}.

Definition setTipPercent (n : num) (st : State num) : State num :=
  {| bill := bill st; tipPercent := n; people := people st;
     taxPercent := taxPercent st; includeTaxInTip := includeTaxInTip st;
     rounding := rounding st |}.

Definition setPeople (n : num) (st : State num) : State num :=
  {| bill := bill st; tipPercent := tipPercent st; people := n;
     taxPercent := taxPercent st; includeTaxInTip := includeTaxInTip st;
     rounding := rounding st |}.

Definition setTaxPercent (n : num) (st : State num) : State num :=
  {| bill := bill st; tipPercent := tipPercent st; people := people st;
     taxPercent := n; includeTaxInTip := includeTaxInTip st;
     rounding := rounding st |}.

(** [onChange] of the tax field:
    [setTaxPercent(safeNumber(e.target.value, 0))]. *)
Definition onChange_taxPercent (v : string) : State num -> State num :=
  setTaxPercent (safeNumber v (lit 0)).

(** [onChange] of the people field:
    [setPeople(Math.max(1, safeNumber(e.target.value, 1)))]. *)
Definition onChange_people (v : string) : State num -> State num :=
  setPeople (Math_max (lit 1) (safeNumber v (lit 1))).

(** [onChange] of the slider: [setTipPercent(Number(e.target.value))].
    The browser keeps the value of a range input a valid number between
    [min] and [max], so [v] is one of "0", "0.5", ..., "40" there. *)
Definition onChange_tipPercent (v : string) : State num -> State num :=
  setTipPercent (Number v).

(** [onClick] of the preset button [p]: [setTipPercent(p)]. *)
Definition onClick_preset (p : N) : State num -> State num :=
  setTipPercent (lit p).

(** [reset]: every field goes back to its initial value. *)
Definition reset (st : State num) : State num := initial_state.
End Program.

(** The first version of the component. *)
Module V1.
Section Component.
Context {num : Type} `{JSNumber num}.
Local Open Scope js_scope.

Definition TipCalculatorApp (st : State num) : Derived num :=
  let numBill := parseToNumber (bill st) in
  let tax := Math_max (lit 0) (numBill * (taxPercent st / lit 100)) in
  let tipBase := if includeTaxInTip st then numBill + tax else numBill in
  let rawTip := Math_max (lit 0) (tipBase * (tipPercent st / lit 100)) in
  let rawTotal := numBill + tax + rawTip in
  let safePeople :=
    Math_max (lit 1) (Math_floor (js_or (people st) (lit 1))) in
  let rawPerPerson := rawTotal / safePeople in
  let '(tip, total, perPerson) :=
    useMemo_rounding (rounding st) rawTip rawTotal rawPerPerson
      numBill tax safePeople in
  let effectiveTipPercent :=
    if tipBase > lit 0 then (tip / tipBase) * lit 100 else lit 0 in
  {| numBill := numBill; tax := tax; tipBase := tipBase;
     rawTip := rawTip; rawTotal := rawTotal; safePeople := safePeople;
     rawPerPerson := rawPerPerson; tip := tip; total := total;
     perPerson := perPerson; effectiveTipPercent := effectiveTipPercent |}.
End Component.
End V1.

(** The second version of the component: [tax] and [rawTip] go through
    [clamp]. *)
Module V2.
Section Component.
Context {num : Type} `{JSNumber num}.
Local Open Scope js_scope.

Definition clamp (n min max : num) : num :=
  Math_min (Math_max n min) max.

Definition TipCalculatorApp (st : State num) : Derived num :=
  let numBill := parseToNumber (bill st) in
  let tax :=
    clamp (numBill * (taxPercent st / lit 100)) (lit 0)
      Number_MAX_SAFE_INTEGER in
  let tipBase := if includeTaxInTip st then numBill + tax else numBill in
  let rawTip :=
    clamp (tipBase * (tipPercent st / lit 100)) (lit 0)
      Number_MAX_SAFE_INTEGER in
  let rawTotal := numBill + tax + rawTip in
  let safePeople :=
    Math_max (lit 1) (Math_floor (js_or (people st) (lit 1))) in
  let rawPerPerson := rawTotal / safePeople in
  let '(tip, total, perPerson) :=
    useMemo_rounding (rounding st) rawTip rawTotal rawPerPerson
      numBill tax safePeople in
  let effectiveTipPercent :=
    if tipBase > lit 0 then (tip / tipBase) * lit 100 else lit 0 in
  {| numBill := numBill; tax := tax; tipBase := tipBase;
     rawTip := rawTip; rawTotal := rawTotal; safePeople := safePeople;
     rawPerPerson := rawPerPerson; tip := tip; total := total;
     perPerson := perPerson; effectiveTipPercent := effectiveTipPercent |}.
End Component.
End V2.

(* ------------------------------------------------------------------ *)
(** ** [guessCurrency] *)

(** What a property read [map[locale]] can produce on the object literal of
    [guessCurrency]: an own property (a string), a member inherited from
    [Object.prototype], or [undefined]. *)
Inductive PropertyValue : Type :=
| OwnString (s : string)
| Inherited (key : string)
| Undefined.

(** The property names of [Object.prototype]. *)
Definition Object_prototype_keys : list string :=
  [ "constructor"; "hasOwnProperty"; "isPrototypeOf";
    "propertyIsEnumerable"; "toLocaleString"; "toString"; "valueOf";
    "__proto__"; "__defineGetter__"; "__defineSetter__";
    "__lookupGetter__"; "__lookupSetter__" ]%string.

(** The object literal [map] of [guessCurrency]. *)
Definition guessCurrency_map : list (string * string) :=
  [ ("en-US", "USD"); ("en-GB", "GBP"); ("en-CA", "CAD"); ("fr-CA", "CAD");
    ("en-AU", "AUD"); ("en-NZ", "NZD"); ("en-IN", "INR"); ("hi-IN", "INR");
    ("ja-JP", "JPY"); ("de-DE", "EUR"); ("fr-FR", "EUR"); ("es-ES", "EUR");
    ("it-IT", "EUR") ]%string.

Fixpoint own_property (o : list (string * string)) (k : string)
  : option string :=
  match o with
  | [] => None
  | (k', v) :: o' => if String.eqb k k' then Some v else own_property o' k
  end.

(** [o[k]]: the own property, else the one found on the prototype. *)
Definition get_property (o : list (string * string)) (k : string)
  : PropertyValue :=
  match own_property o k with
  | Some v => OwnString v
  | None =>
      if existsb (String.eqb k) Object_prototype_keys then Inherited k
      else Undefined
  end.

Definition PropertyValue_truthy (v : PropertyValue) : bool :=
  match v with
  | OwnString s => negb (string_falsy s)
  | Inherited _ => true
  | Undefined => false
  end.

(** [map[locale] || "USD"] *)
Definition guessCurrency (locale : string) : PropertyValue :=
  let v := get_property guessCurrency_map locale in
  if PropertyValue_truthy v then v else OwnString "USD".

(** The remaining setters, and the states the theorems range over. *)
Section States.
Context {num : Type} `{JSNumber num}.

Definition setIncludeTaxInTip (b : bool) (st : State num) : State num :=
  {| bill := bill st; tipPercent := tipPercent st; people := people st;
     taxPercent := taxPercent st; includeTaxInTip := b;
     rounding := rounding st |}.

Definition setRounding (r : Rounding.id) (st : State num) : State num :=
  {| bill := bill st; tipPercent := tipPercent st; people := people st;
     taxPercent := taxPercent st; includeTaxInTip := includeTaxInTip st;
     rounding := r |}.

(** The state after typing [b] in the bill field, [t] in the tax field and
    [p] in the people field, moving the slider to [s], and choosing the
    checkbox and the rounding mode, from the initial state. *)
Definition typed_state (b t s p : string) (inc : bool) (r : Rounding.id)
  : State num :=
  setRounding r
    (setIncludeTaxInTip inc
       (onChange_people p
          (onChange_tipPercent s
             (onChange_taxPercent t (setBill b initial_state))))).
End States.

(** A state whose three numbers are finite. *)
Definition finite_state (b : string) (tp p tx : Qc) (inc : bool)
    (r : Rounding.id) : State xnum :=
  {| bill := b; tipPercent := Fin tp; people := Fin p; taxPercent := Fin tx;
     includeTaxInTip := inc; rounding := r |}.

(* ------------------------------------------------------------------ *)
(** ** Vocabulary of the statements *)

(** The rational a finite value stands for. *)
Definition value (x : xnum) : Qc :=
  match x with Fin q => q | _ => 0%Qc end.

Definition Qcmax (a b : Qc) : Qc := if Qle_bool a b then b else a.
Definition Qcmin (a b : Qc) : Qc := if Qle_bool a b then a else b.

(** [Math.max(1, Math.floor(p || 1))] on a finite [p], as an integer. *)
Definition safePeople_of (p : Qc) : Z :=
  Z.max 1 (Qfloor (if Qeq_bool p 0 then 1 else p)).

(** [0 <= x]. *)
Definition nonneg (x : xnum) : Prop := x_leb (lit 0) x = true.

Definition half : Qc := Q2Qc (1 # 2).

(** Rounding half away from zero, as the specification words it: the
    nearest integer, a tie going to the integer of larger magnitude. *)
Definition round_half_away_from_zero (q : Qc) : Z :=
  if Qle_bool 0 q then Qfloor (q + (1 # 2))
  else (- Qfloor (- q + (1 # 2)))%Z.

(** Sanitization as the specification words it: digits and decimal points
    are kept, and a minus sign only when nothing has been kept before it. *)
Fixpoint strip_as_stated (leading : bool) (s : string) : string :=
  match s with
  | EmptyString => EmptyString
  | String c s' =>
      if is_digit c || is_char 46 c then String c (strip_as_stated false s')
      else if is_char 45 c && leading then
        String c (strip_as_stated false s')
      else strip_as_stated leading s'
  end.

(** The four scenarios of the specification, and the inputs at which the
    statements below are evaluated. *)
Section Scenarios.
Context {num : Type} `{JSNumber num}.

Definition scenario_exact_split : State num :=
  typed_state "100" "10" "20" "4" false Rounding.none.
Definition scenario_tax_in_tip : State num :=
  typed_state "100" "10" "20" "4" true Rounding.none.
Definition scenario_round_per_person : State num :=
  typed_state "50" "0" "18" "3" false Rounding.perPerson.
Definition scenario_zero_bill : State num :=
  typed_state "0" "0" "18" "1" false Rounding.none.

(** A negative bill that ends in one half, total rounded. *)
Definition state_negative_tie : State num :=
  typed_state "-2.5" "0" "0" "1" false Rounding.total.
(** What is typed in the people field. *)
Definition state_people (p : string) : State num :=
  typed_state "50" "0" "18" p false Rounding.none.
End Scenarios.

(** [d] displays the given tax, tip, total, share per person and effective
    tip percentage.  The specification lists: tax 10, tip 20, total 130,
    32.5 each; with the tax in the tip base, tip 22, total 132, 33 each;
    rounded per person, 20 each, total 60, tip 10; and all zero for a zero
    bill. *)
Definition displays {num} `{JSNumber num} (d : Derived num)
    (tx tp tot pp eff : string) : bool :=
  (tax d === Number tx)%js && (tip d === Number tp)%js &&
  (total d === Number tot)%js && (perPerson d === Number pp)%js &&
  (effectiveTipPercent d === Number eff)%js.

(* ------------------------------------------------------------------ *)
(** ** The rest of the component *)

(** *** [classNames] *)

(** An argument of [classNames]: [string | false | null | undefined]. *)
Inductive ClassValue : Type :=
| ClassString (s : string)
| ClassFalse
| ClassNull
| ClassUndefined.

(** [Boolean(c)] *)
Definition ClassValue_truthy (c : ClassValue) : bool :=
  match c with
  | ClassString s => negb (string_falsy s)
  | _ => false
  end.

(** The text [join] writes for an element: nothing for [null] and
    [undefined]. *)
Definition ClassValue_text (c : ClassValue) : string :=
  match c with
  | ClassString s => s
  | ClassFalse => "false"
  | ClassNull | ClassUndefined => ""
  end.

(** [a.join(sep)] *)
Fixpoint join (sep : string) (a : list ClassValue) : string :=
  match a with
  | [] => ""
  | [c] => ClassValue_text c
  | c :: a' => ClassValue_text c ++ sep ++ join sep a'
  end.

(** [cls.filter(Boolean).join(" ")] *)
Definition classNames (cls : list ClassValue) : string :=
  join " " (filter ClassValue_truthy cls).

(** The [className] of the button of preset [p] in the first version:
    [classNames("px-3 ...", tipPercent === p ? "bg-slate-900 text-white" :
    "bg-white dark:bg-slate-800")]. *)
Definition preset_className {num} `{JSNumber num} (tipPercent : num) (p : N)
  : string :=
  classNames
    [ ClassString "px-3 py-1.5 rounded-full text-sm border";
      ClassString (if (tipPercent === lit p)%js
                   then "bg-slate-900 text-white"
                   else "bg-white dark:bg-slate-800") ].

(** *** The effect that follows [dark] *)

(** [root.classList] is an ordered set of tokens: [add] appends a token
    that is not there, [remove] takes it out. *)
Definition classList_add (t : string) (cl : list string) : list string :=
  if existsb (String.eqb t) cl then cl else (cl ++ [t])%list.

Definition classList_remove (t : string) (cl : list string) : list string :=
  filter (fun u => negb (String.eqb u t)) cl.

(** [dark ? root.classList.add("dark") : root.classList.remove("dark")] *)
Definition useEffect_dark (dark : bool) (cl : list string) : list string :=
  if dark then classList_add "dark" cl else classList_remove "dark" cl.

(** *** What the user can do *)

(** One event per handler of the markup.  The first version renders no
    button for the rounding modes; the second does
    ([onClick={() => setRounding(m.id)}]). *)
Inductive Event : Type :=
| TypeBill (v : string)
| TypeTax (v : string)
| CheckIncludeTax (checked : bool)
| MoveSlider (v : string)
| ClickPreset (p : N)
| TypePeople (v : string)
| ClickRounding (r : Rounding.id)
| ClickReset.

Section Events.
Context {num : Type} `{JSNumber num}.

Definition handle (e : Event) (st : State num) : State num :=
  match e with
  | TypeBill v => setBill v st
  | TypeTax v => onChange_taxPercent v st
  | CheckIncludeTax c => setIncludeTaxInTip c st
  | MoveSlider v => onChange_tipPercent v st
  | ClickPreset p => onClick_preset p st
  | TypePeople v => onChange_people v st
  | ClickRounding r => setRounding r st
  | ClickReset => reset st
  end.

Definition run (events : list Event) (st : State num) : State num :=
  fold_left (fun s e => handle e s) events st.
End Events.

(** The events the first version can receive. *)
Definition rendered_in_V1 (e : Event) : Prop :=
  match e with ClickRounding _ => False | _ => True end.

(** The slider gives a number between its [min] and [max], and there is a
    button for each of [presets] only. *)
Definition well_formed (e : Event) : Prop :=
  match e with
  | MoveSlider v =>
      exists q : Qc, Number v = Fin q /\ (0 <= q)%Qc /\ (q <= Zc 40)%Qc
  | ClickPreset p => In p presets
  | _ => True
  end.

(** The tax and people fields hold finite numbers, the latter at least 1. *)
Definition state_ok (st : State xnum) : Prop :=
  (exists tx, taxPercent st = Fin tx) /\
  (exists p, people st = Fin p /\ (1 <= p)%Qc).

(** The tip percentage is a number of the slider's range. *)
Definition tip_ok (st : State xnum) : Prop :=
  exists tp, tipPercent st = Fin tp /\ (0 <= tp)%Qc /\ (tp <= Zc 40)%Qc.

(** *** Numbers as text *)

(** [String(n)] for a whole number [n] up to [Number.MAX_SAFE_INTEGER]: its
    decimal digits ([value={String(people)}]). *)
Definition String_whole (n : N) : string :=
  DecimalString.NilZero.string_of_uint (N.to_uint n).

(** The value of a sequence of decimal digits read from the left, starting
    from [acc]. *)
Fixpoint uint_value (acc : N) (d : Decimal.uint) : N :=
  match d with
  | Decimal.Nil => acc
  | Decimal.D0 d => uint_value (acc * 10 + 0) d
  | Decimal.D1 d => uint_value (acc * 10 + 1) d
  | Decimal.D2 d => uint_value (acc * 10 + 2) d
  | Decimal.D3 d => uint_value (acc * 10 + 3) d
  | Decimal.D4 d => uint_value (acc * 10 + 4) d
  | Decimal.D5 d => uint_value (acc * 10 + 5) d
  | Decimal.D6 d => uint_value (acc * 10 + 6) d
  | Decimal.D7 d => uint_value (acc * 10 + 7) d
  | Decimal.D8 d => uint_value (acc * 10 + 8) d
  | Decimal.D9 d => uint_value (acc * 10 + 9) d
  end%N.

Definition all_digits (s : list ascii) : Prop :=
  Forall (fun c => is_digit c = true) s.

Definition all_space (s : list ascii) : Prop :=
  Forall (fun c => is_StrWhiteSpaceChar c = true) s.

(** *** Vocabulary of the further statements *)

(** [0 <= x <= Number.MAX_SAFE_INTEGER] on binary64. *)
Definition in_safe_range (x : float) : bool :=
  ((lit 0 <=? x) && (x <=? Number_MAX_SAFE_INTEGER))%float.

(** The values of the table of [guessCurrency], and its default. *)
Definition currency_codes : list string :=
  ["USD"; "GBP"; "CAD"; "AUD"; "NZD"; "INR"; "JPY"; "EUR"]%string.

(** A tax percentage of 1e308 on a bill of 1000, tax in the tip base, no
    tip: the product overflows binary64. *)
Definition state_overflow {num} `{JSNumber num} : State num :=
  typed_state "1000" "1e308" "0" "1" true Rounding.none.

(* ------------------------------------------------------------------ *)
(** ** Vocabulary of the statements on binary64 *)





(** An integer: a zero, or a finite [m * 2^e] with [0 <= e] or with [m] a
    multiple of [2^(-e)]. *)
Definition SF_isInteger (f : spec_float) : bool :=
  match f with
  | S754_zero _ => true
  | S754_finite _ m e => ((0 <=? e) || (Zpos m mod 2 ^ (- e) =? 0))%Z
  | _ => false
  end.

(** [Number.isInteger(x)] *)
Definition Number_isInteger (x : float) : bool := SF_isInteger (Prim2SF x).








Unset Implicit Arguments.

(* ------------------------------------------------------------------ *)
(** ** Canonical rationals: from [Qc] to [Q] and back *)

Local Open Scope Qc_scope.
Local Open Scope string_scope.

Lemma this_plus (a b : Qc) : (this (a + b) == this a + this b)%Q.
Proof. apply Qred_correct. Qed.

Lemma this_mult (a b : Qc) : (this (a * b) == this a * this b)%Q.
Proof. apply Qred_correct. Qed.

Lemma this_opp (a : Qc) : (this (- a) == - this a)%Q.
Proof. apply Qred_correct. Qed.

Lemma this_minus (a b : Qc) : (this (a - b) == this a - this b)%Q.
Proof. unfold Qcminus. rewrite this_plus, this_opp. reflexivity. Qed.

Lemma this_inv (a : Qc) : (this (/ a) == / this a)%Q.
Proof. apply Qred_correct. Qed.

Lemma this_div (a b : Qc) : (this (a / b) == this a / this b)%Q.
Proof. unfold Qcdiv. rewrite this_mult, this_inv. reflexivity. Qed.

Lemma this_Zc (z : Z) : (this (Zc z) == inject_Z z)%Q.
Proof. apply Qred_correct. Qed.

Lemma this_half : (this half == 1 # 2)%Q.
Proof. reflexivity. Qed.

Lemma Qc_eq_iff (a b : Qc) : a = b <-> (this a == this b)%Q.
Proof. split; [intros ->; reflexivity | apply Qc_is_canon]. Qed.

(** Turns a goal on [Qc] into one on [Q], where [lra] applies. *)
Ltac qc2q :=
  repeat match goal with
  | H : @eq Qc _ _ |- _ => apply Qc_eq_iff in H
  | |- @eq Qc _ _ => apply Qc_eq_iff
  end;
  unfold Qcle, Qclt in *;
  repeat first
    [ rewrite this_minus in * | rewrite this_div in *
    | rewrite this_plus in * | rewrite this_mult in *
    | rewrite this_opp in * | rewrite this_inv in *
    | rewrite this_Zc in * | rewrite this_half in * ].

Lemma Zc_0 : Zc (Z.of_N 0) = 0.
Proof. reflexivity. Qed.

Lemma Zc_le (a b : Z) : Qle_bool (Zc a) (Zc b) = (a <=? b)%Z.
Proof.
  apply eq_true_iff_eq.
  rewrite Qle_bool_iff, Z.leb_le, !this_Zc, <- Zle_Qle. reflexivity.
Qed.

Lemma Zc_nonzero (z : Z) : z <> 0%Z -> Zc z <> 0.
Proof.
  intros Hz E. apply Hz. apply Qc_eq_iff in E. rewrite this_Zc in E.
  unfold Qeq in E. cbn in E. lia.
Qed.

Lemma Zc_lit_nonzero (n : N) : n <> 0%N -> Zc (Z.of_N n) <> 0.
Proof. intros. apply Zc_nonzero. lia. Qed.

Lemma Qle_bool_false (a b : Qc) : Qle_bool a b = false <-> b < a.
Proof.
  split.
  - intros E. apply Qcnot_le_lt. intros Hle.
    apply Qle_bool_iff in Hle. congruence.
  - intros Hlt. destruct (Qle_bool a b) eqn:E; [|reflexivity].
    apply Qle_bool_iff in E. exfalso. exact (Qclt_not_le _ _ Hlt E).
Qed.

(** *** Maximum and minimum *)

Lemma Qcmax_case (a b : Qc) :
  (a <= b /\ Qcmax a b = b) \/ (b < a /\ Qcmax a b = a).
Proof.
  unfold Qcmax. destruct (Qle_bool a b) eqn:E.
  - left. split; [now apply Qle_bool_iff in E | reflexivity].
  - right. split; [now apply Qle_bool_false | reflexivity].
Qed.

Lemma Qcmax_l (a b : Qc) : a <= Qcmax a b.
Proof.
  destruct (Qcmax_case a b) as [[H ->]|[_ ->]];
    [exact H | apply Qcle_refl].
Qed.


Lemma Qcmin_l (a b : Qc) : a <= b -> Qcmin a b = a.
Proof. intros H. unfold Qcmin. apply Qle_bool_iff in H. now rewrite H. Qed.

Lemma Zc_max (a b : Z) : Qcmax (Zc a) (Zc b) = Zc (Z.max a b).
Proof.
  unfold Qcmax. rewrite Zc_le. destruct (Z.leb_spec a b); f_equal; lia.
Qed.


(** *** Rounding *)

Lemma floor_half_bounds (q : Qc) :
  q - half < Zc (Qfloor (q + (1 # 2))) /\
  Zc (Qfloor (q + (1 # 2))) <= q + half.
Proof.
  pose proof (Qfloor_le (q + (1 # 2))) as Hl.
  pose proof (Qlt_floor (q + (1 # 2))) as Hu.
  rewrite inject_Z_plus in Hu. change (inject_Z 1) with 1%Q in Hu.
  set (z := Qfloor (q + (1 # 2))) in *. clearbody z.
  split; qc2q; set (zq := inject_Z z) in *; clearbody zq; lra.
Qed.

(** *** The number of people *)

Lemma safePeople_of_pos (p : Qc) : (1 <= safePeople_of p)%Z.
Proof. unfold safePeople_of. lia. Qed.

Lemma Zc_safePeople_nonzero (p : Qc) : Zc (safePeople_of p) <> 0.
Proof. apply Zc_nonzero. pose proof (safePeople_of_pos p). lia. Qed.

(* ------------------------------------------------------------------ *)
(** ** The operations on finite values *)

Lemma lit_Fin (n : N) : @lit xnum _ n = Fin (Zc (Z.of_N n)).
Proof.
  unfold lit; cbn. f_equal. apply Q2Qc_eq_iff. unfold pow10. ring.
Qed.

Lemma x_max_Fin (a b : Qc) : Math_max (Fin a) (Fin b) = Fin (Qcmax a b).
Proof. cbn. unfold x_max, Qcmax. cbn. now destruct (Qle_bool a b). Qed.

Lemma x_min_Fin (a b : Qc) : Math_min (Fin a) (Fin b) = Fin (Qcmin a b).
Proof. cbn. unfold x_min, Qcmin. cbn. now destruct (Qle_bool a b). Qed.

Lemma x_div_Fin (a b : Qc) :
  b <> 0 -> js_div (Fin a) (Fin b) = Fin (a / b).
Proof.
  intros Hb. cbn. destruct (Qeq_bool b 0) eqn:E; [|reflexivity].
  apply Qeq_bool_iff in E. exfalso. apply Hb. now apply Qc_is_canon.
Qed.

Lemma x_eq_Fin (a b : Qc) : (Fin a === Fin b)%js = true <-> a = b.
Proof. cbn. rewrite Qeq_bool_iff. symmetry. apply Qc_eq_iff. Qed.

Lemma x_leb_Fin (a b : Qc) : x_leb (Fin a) (Fin b) = true <-> a <= b.
Proof. cbn. apply Qle_bool_iff. Qed.

(** [Number] reads a finite value or none: [parseToNumber] and
    [safeNumber] return a finite value. *)
Lemma parseToNumber_Fin (v : string) :
  @parseToNumber xnum _ v = Fin (value (parseToNumber v)).
Proof.
  unfold parseToNumber. destruct (string_falsy v); [now rewrite lit_Fin|].
  cbv zeta. destruct (Number (replace_non_numeric v)); cbn;
    now rewrite ?lit_Fin.
Qed.

Lemma safeNumber_Fin (v : string) (q : Qc) :
  @safeNumber xnum _ v (Fin q) = Fin (value (safeNumber v (Fin q))).
Proof. unfold safeNumber. cbv zeta. now destruct (Number v). Qed.

Lemma safePeople_Fin (p : Qc) :
  Math_max (lit 1) (Math_floor (js_or (Fin p) (lit 1))) =
  Fin (Zc (safePeople_of p)).
Proof.
  unfold js_or, safePeople_of. rewrite !lit_Fin.
  cbn [ToBoolean xnum_JSNumber x_truthy].
  destruct (Qeq_bool p 0); cbn [negb Math_floor xnum_JSNumber x_floor];
    rewrite x_max_Fin, Zc_max; reflexivity.
Qed.

(** The states the handlers produce are finite states as soon as the
    slider's value is a number: the tax and people fields always are. *)
Lemma typed_state_finite (b t s p : string) (inc : bool) (r : Rounding.id)
    (tp : Qc) :
  Number s = Fin tp ->
  exists p' tx' : Qc,
    1 <= p' /\ typed_state b t s p inc r = finite_state b tp p' tx' inc r.
Proof.
  intros E. unfold typed_state, onChange_people, onChange_tipPercent,
    onChange_taxPercent, setRounding, setIncludeTaxInTip, setPeople,
    setTipPercent, setTaxPercent, setBill, initial_state, finite_state.
  cbn [bill tipPercent people taxPercent includeTaxInTip rounding].
  rewrite E, !lit_Fin, (safeNumber_Fin p), (safeNumber_Fin t), x_max_Fin.
  eexists _, _. split; [apply Qcmax_l | reflexivity].
Qed.

Lemma filter_string_spec (f : ascii -> bool) (v : string) :
  list_ascii_of_string (filter_string f v) =
  List.filter f (list_ascii_of_string v).
Proof.
  induction v as [|c v IH]; cbn; [reflexivity|].
  destruct (f c); cbn; now rewrite IH.
Qed.

(** *** Evaluating the component on a finite state *)

Ltac fin_side :=
  first [ apply Zc_safePeople_nonzero
        | apply Zc_lit_nonzero; discriminate
        | assumption ].

Ltac fin_step :=
  first
    [ rewrite lit_Fin
    | rewrite safePeople_Fin
    | rewrite x_max_Fin
    | rewrite x_min_Fin
    | match goal with
      | |- context [(Fin ?a / Fin ?b)%js] =>
          rewrite (x_div_Fin a b) by fin_side
      end
    | progress cbn [js_add js_sub js_mul Math_round Math_floor
                    xnum_JSNumber x_add x_sub x_mul x_round x_floor] ].

Ltac fin_proj :=
  cbn [numBill tax tipBase rawTip rawTotal safePeople rawPerPerson tip
       total perPerson effectiveTipPercent].

(** Unfolds the first version on a [finite_state] and names the parsed
    bill [nb]. *)
Ltac v1_open nb :=
  unfold V1.TipCalculatorApp, finite_state;
  cbn [bill tipPercent people taxPercent includeTaxInTip rounding];
  rewrite parseToNumber_Fin;
  match goal with
  | |- context [value (parseToNumber ?b)] =>
      set (nb := value (parseToNumber b))
  end;
  repeat fin_step.

(* ------------------------------------------------------------------ *)
(** ** What each branch assigns, on every instance *)

(** The assignments of the four branches, read off the component for any
    implementation of the number operations, binary64 included. *)
Section Branches.
Context {num : Type} `{JSNumber num}.
Variable st : State num.
Let d : Derived num := V1.TipCalculatorApp st.

Lemma none_branch :
  rounding st = Rounding.none ->
  tip d = rawTip d /\
  total d = (numBill d + tax d + tip d)%js /\
  perPerson d = (total d / safePeople d)%js.
Proof.
  intros E. subst d. unfold V1.TipCalculatorApp. rewrite E. cbn.
  repeat split.
Qed.


Lemma total_branch :
  rounding st = Rounding.total ->
  total d = Math_round (rawTotal d) /\
  tip d = Math_max (lit 0) (total d - (numBill d + tax d))%js /\
  perPerson d = (total d / safePeople d)%js.
Proof.
  intros E. subst d. unfold V1.TipCalculatorApp. rewrite E. cbn.
  repeat split.
Qed.


(** What the component reads from its state, whatever the mode. *)
Lemma derived_inputs :
  numBill d = parseToNumber (bill st) /\
  tax d = Math_max (lit 0) (numBill d * (taxPercent st / lit 100))%js /\
  tipBase d =
    (if includeTaxInTip st then (numBill d + tax d)%js else numBill d) /\
  rawTip d = Math_max (lit 0) (tipBase d * (tipPercent st / lit 100))%js /\
  rawTotal d = (numBill d + tax d + rawTip d)%js /\
  safePeople d =
    Math_max (lit 1) (Math_floor (js_or (people st) (lit 1))) /\
  rawPerPerson d = (rawTotal d / safePeople d)%js /\
  effectiveTipPercent d =
    (if (tipBase d > lit 0)%js then (tip d / tipBase d * lit 100)%js
     else lit 0).
Proof.
  subst d. unfold V1.TipCalculatorApp.
  destruct (useMemo_rounding _ _ _ _ _ _ _) as [[? ?] ?].
  repeat split.
Qed.
End Branches.

(* ------------------------------------------------------------------ *)
(** ** Facts on binary64 *)

(** The primitive operations are specified by [FloatAxioms] through
    [Prim2SF]; the facts below are read off the specification
    [SpecFloat]. *)
Section Binary64.
Local Open Scope Z_scope.


Lemma SFcompare_refl (f : spec_float) :
  f <> S754_nan -> SFcompare f f = Some Eq.
Proof.
  destruct f as [s|s| |s m e]; cbn; try congruence; intros _.
  - now destruct s.
  - rewrite Z.compare_refl.
    change (Pos.compare_cont Eq m m) with (Pos.compare m m).
    rewrite Pos.compare_refl. now destruct s.
Qed.

Lemma is_nan_SF (x : float) :
  is_nan x = match Prim2SF x with S754_nan => true | _ => false end.
Proof.
  unfold is_nan. rewrite eqb_spec. unfold SFeqb.
  destruct (Prim2SF x) as [s|s| |s m e] eqn:E; try reflexivity;
    rewrite SFcompare_refl; try reflexivity; discriminate.
Qed.

Lemma is_finite_SF (x : float) :
  is_finite x =
  match Prim2SF x with S754_nan | S754_infinity _ => false | _ => true end.
Proof.
  unfold is_finite, is_infinity. rewrite is_nan_SF, eqb_spec, abs_spec.
  change (Prim2SF infinity) with (S754_infinity false).
  destruct (Prim2SF x) as [s|s| |s m e]; reflexivity.
Qed.

(** A value that is not [NaN] is [===] to itself. *)
Lemma eqb_not_nan (x y : float) :
  x = y -> is_nan x = false -> (x === y)%js = true.
Proof.
  intros <- H. unfold is_nan in H. cbn [strict_eq float_JSNumber].
  now destruct (x =? x)%float.
Qed.

(** *** Signs *)















(** *** Integers *)

Lemma digits2_pos_iter (p k : positive) :
  digits2_pos (Pos.iter xO p k) = (digits2_pos p + k)%positive.
Proof.
  induction k as [|k IH] using Pos.peano_ind.
  - cbn. now rewrite Pos.add_1_r.
  - rewrite Pos.iter_succ. cbn [digits2_pos]. rewrite IH. lia.
Qed.

Lemma Zpos_iter_xO (p k : positive) :
  Zpos (Pos.iter xO p k) = Zpos p * 2 ^ Zpos k.
Proof.
  induction k as [|k IH] using Pos.peano_ind.
  - cbn. lia.
  - rewrite Pos.iter_succ, Pos2Z.inj_xO, IH, Pos2Z.inj_succ,
      Z.pow_succ_r by lia. ring.
Qed.

(** [digits2_pos p] is the number of bits of [p]. *)
Lemma digits2_pos_bounds (p : positive) :
  2 ^ (Zpos (digits2_pos p) - 1) <= Zpos p < 2 ^ Zpos (digits2_pos p).
Proof.
  induction p as [p IH|p IH|]; cbn [digits2_pos]; [| |cbn; lia].
  all: rewrite Pos2Z.inj_succ.
  all: replace (Z.succ (Zpos (digits2_pos p)) - 1)
         with (Z.succ (Zpos (digits2_pos p) - 1)) by lia.
  all: rewrite !Z.pow_succ_r by lia; lia.
Qed.

Lemma digits2_pos_le (p : positive) (n : Z) :
  Zpos p < 2 ^ n -> Zpos (digits2_pos p) <= n.
Proof.
  intros H.
  destruct (Z_le_gt_dec (Zpos (digits2_pos p)) n) as [|G]; [assumption|].
  exfalso. destruct (digits2_pos_bounds p) as [L _].
  assert (0 <= n \/ n < 0) as [Hn|Hn] by lia.
  - assert (2 ^ n <= 2 ^ (Zpos (digits2_pos p) - 1))
      by (apply Z.pow_le_mono_r; lia). lia.
  - rewrite Z.pow_neg_r in H by assumption. lia.
Qed.

(** An integer of at most 53 bits is a binary64 value: rounding it shifts
    it to 53 bits and drops nothing. *)
Lemma binary_round_small (s : bool) (p : positive) :
  Zpos (digits2_pos p) <= 53 ->
  exists m e,
    binary_round prec emax s p 0 = S754_finite s m e /\
    valid_binary (S754_finite s m e) = true /\
    SF_isInteger (S754_finite s m e) = true.
Proof.
  intros Hd. unfold binary_round.
  assert (Hf : fexp prec emax (Zpos (digits2_pos p) + 0) =
               Zpos (digits2_pos p) - 53).
  { unfold fexp, SpecFloat.emin, prec, emax. lia. }
  rewrite Hf. unfold shl_align.
  replace (Zpos (digits2_pos p) - 53 - 0) with (Zpos (digits2_pos p) - 53)
    by lia.
  assert (aux : forall (m : positive) (e : Z),
            Zpos (digits2_pos m) = 53 -> -52 <= e <= 0 ->
            binary_round_aux prec emax s (Zpos m) e loc_Exact =
            S754_finite s m e /\
            valid_binary (S754_finite s m e) = true).
  { intros m e Hm He.
    assert (Hfe : fexp prec emax (Zpos (digits2_pos m) + e) = e).
    { rewrite Hm. unfold fexp, SpecFloat.emin, prec, emax. lia. }
    split.
    - unfold binary_round_aux, shr_fexp. cbn [Zdigits2 shr_record_of_loc].
      rewrite Hfe, Z.sub_diag. cbn [shr shr_m loc_of_shr_record
        round_nearest_even Zdigits2 shr_record_of_loc].
      rewrite Hfe, Z.sub_diag. cbn [shr shr_m].
      replace (e <=? emax - prec) with true; [reflexivity|].
      symmetry. apply Z.leb_le. unfold emax, prec. lia.
    - cbn [SpecFloat.valid_binary]. unfold bounded, canonical_mantissa.
      rewrite Hfe, Z.eqb_refl. cbn [andb]. apply Z.leb_le.
      unfold emax, prec. lia. }
  destruct (Zpos (digits2_pos p) - 53) as [|k|k] eqn:E; [| lia |].
  - destruct (aux p 0) as [E1 E2]; [lia | lia |].
    exists p, 0. rewrite E1. split; [reflexivity|]. split; [exact E2|].
    reflexivity.
  - assert (Hk : Zpos (digits2_pos (Pos.iter xO p k)) = 53).
    { rewrite digits2_pos_iter. lia. }
    destruct (aux (Pos.iter xO p k) (Zneg k)) as [E1 E2]; [exact Hk | lia |].
    exists (Pos.iter xO p k), (Zneg k). rewrite E1.
    split; [reflexivity|]. split; [exact E2|].
    cbn [SF_isInteger]. rewrite Zpos_iter_xO.
    change (- Zneg k) with (Zpos k). rewrite Z.mod_mul by lia.
    apply orb_true_r.
Qed.

Lemma Z2float_small (z : Z) :
  z <> 0 -> Z.abs z < 2 ^ 53 ->
  exists m e,
    Prim2SF (Z2float z) = S754_finite (z <? 0) m e /\
    SF_isInteger (S754_finite (z <? 0) m e) = true.
Proof.
  intros Hz Hb. unfold Z2float.
  destruct z as [|p|p]; [congruence| |]; cbn [binary_normalize].
  - destruct (binary_round_small false p) as [m [e [E [V I]]]];
      [apply digits2_pos_le; exact Hb|].
    exists m, e. rewrite E, Prim2SF_SF2Prim by exact V. auto.
  - destruct (binary_round_small true p) as [m [e [E [V I]]]];
      [apply digits2_pos_le; exact Hb|].
    exists m, e. rewrite E, Prim2SF_SF2Prim by exact V. auto.
Qed.

(** The mantissa of a binary64 value has at most 53 bits. *)
Lemma Prim2SF_mantissa (x : float) (s : bool) (m : positive) (e : Z) :
  Prim2SF x = S754_finite s m e -> Zpos m < 2 ^ 53.
Proof.
  intros E. pose proof (Prim2SF_valid x) as V. rewrite E in V.
  cbn [SpecFloat.valid_binary] in V. unfold bounded, canonical_mantissa in V.
  apply andb_true_iff in V. destruct V as [V _]. apply Z.eqb_eq in V.
  unfold fexp, SpecFloat.emin, prec, emax in V.
  destruct (digits2_pos_bounds m) as [_ U].
  assert (Hd : Zpos (digits2_pos m) <= 53) by lia.
  eapply Z.lt_le_trans; [exact U|]. apply Z.pow_le_mono_r; lia.
Qed.

(** [floor (n / 2^k + 1/2)] for a 53-bit [n] and [0 < k]. *)
Lemma round_quotient_bound (n k : Z) :
  0 < k -> Z.abs n < 2 ^ 53 ->
  Z.abs ((2 * n + 2 ^ k) / 2 ^ (k + 1)) < 2 ^ 53 /\
  (0 <= n -> 0 <= (2 * n + 2 ^ k) / 2 ^ (k + 1)).
Proof.
  intros Hk Hn. rewrite Z.pow_add_r, Z.pow_1_r by lia.
  assert (HP : 2 <= 2 ^ k).
  { change 2 with (2 ^ 1) at 1. apply Z.pow_le_mono_r; lia. }
  set (P := 2 ^ k) in *. clearbody P.
  pose proof (Z.div_mod (2 * n + P) (P * 2) ltac:(lia)) as D.
  pose proof (Z.mod_pos_bound (2 * n + P) (P * 2) ltac:(lia)) as B.
  set (q := (2 * n + P) / (P * 2)) in *. clearbody q.
  set (r := (2 * n + P) mod (P * 2)) in *. clearbody r.
  change (2 ^ 53) with 9007199254740992 in *.
  split; [|intros H0]; nia.
Qed.

(** [Math.round(x)] is an integer exactly when [x] is finite; it is [x]
    itself when [x] is infinite or [NaN]. *)
Lemma Math_round_isInteger (x : float) :
  Number_isInteger (Math_round x) = Number_isFinite x.
Proof.
  cbn [Math_round Number_isFinite float_JSNumber].
  rewrite is_finite_SF. unfold Number_isInteger, f_round.
  destruct (Prim2SF x) as [s|s| |s m e] eqn:E; try (rewrite E; reflexivity).
  destruct (0 <=? e) eqn:He.
  { rewrite E. cbn [SF_isInteger]. now rewrite He. }
  apply Z.leb_gt in He.
  pose proof (Prim2SF_mantissa x s m e E) as Hm.
  destruct (round_quotient_bound (cond_Zopp s (Zpos m)) (- e)) as [Hb _];
    [lia | destruct s; cbn [cond_Zopp]; lia |].
  destruct (_ =? 0) eqn:Hz.
  { now destruct s. }
  apply Z.eqb_neq in Hz.
  destruct (Z2float_small _ Hz Hb) as [m' [e' [E' I]]].
  rewrite E'. exact I.
Qed.

(** [floor (n / 2^k)] for a 53-bit [n] and [0 < k]. *)
Lemma floor_quotient_bound (n k : Z) :
  0 < k -> Z.abs n < 2 ^ 53 -> Z.abs (n / 2 ^ k) < 2 ^ 53.
Proof.
  intros Hk Hn.
  assert (HP : 2 <= 2 ^ k).
  { change 2 with (2 ^ 1) at 1. apply Z.pow_le_mono_r; lia. }
  set (P := 2 ^ k) in *. clearbody P.
  pose proof (Z.div_mod n P ltac:(lia)) as D.
  pose proof (Z.mod_pos_bound n P ltac:(lia)) as B.
  set (q := n / P) in *. clearbody q.
  set (r := n mod P) in *. clearbody r.
  change (2 ^ 53) with 9007199254740992 in *. nia.
Qed.

(** [Math.floor(x)] is an integer exactly when [x] is finite, and [NaN]
    exactly when [x] is. *)
Lemma Math_floor_isInteger (x : float) :
  Number_isInteger (Math_floor x) = Number_isFinite x /\
  is_nan (Math_floor x) = is_nan x.
Proof.
  cbn [Math_floor Number_isFinite float_JSNumber].
  rewrite is_finite_SF, !is_nan_SF. unfold Number_isInteger, f_floor.
  destruct (Prim2SF x) as [s|s| |s m e] eqn:E;
    try (rewrite E; split; reflexivity).
  destruct (0 <=? e) eqn:He.
  { rewrite E. cbn [SF_isInteger]. now rewrite He. }
  apply Z.leb_gt in He.
  pose proof (Prim2SF_mantissa x s m e E) as Hm.
  assert (Hb : Z.abs (cond_Zopp s (Zpos m) / 2 ^ (- e)) < 2 ^ 53).
  { apply floor_quotient_bound; [lia|]. destruct s; cbn [cond_Zopp]; lia. }
  destruct (Z.eq_dec (cond_Zopp s (Zpos m) / 2 ^ (- e)) 0) as [Hz|Hz].
  - rewrite Hz. split; reflexivity.
  - destruct (Z2float_small _ Hz Hb) as [m' [e' [E' I]]].
    rewrite E'. split; [exact I | reflexivity].
Qed.
End Binary64.

(** Samples of the binary64 operations that are not primitive: the
    conversion of a decimal literal, [Math.floor] and [Math.round]. *)
Example binary64_samples :
  (Number "0.1" === 1 / 10)%js%float = true /\
  (Number "1e23" === Number "99999999999999991611392")%js%float = true /\
  (Number "9007199254740993" === 9007199254740992%float)%js = true /\
  Number_isFinite (Number "1e400" : float) = false /\
  (Math_floor (-0.25)%float === (-1)%float)%js = true /\
  (Math_round 2.5%float === 3%float)%js = true /\
  (Math_round (-2.5)%float === (-2)%float)%js = true /\
  (Math_round (next_down 0.5%float) === 0%float)%js = true /\
  (Math_round (59 / 3)%float === 20%float)%js = true.
Proof. vm_compute. repeat split. Qed.

(** The sign of a zero result, seen through a division. *)
Example binary64_signed_zeros :
  (lit 1 / Math_round (-0.25)%float === neg_infinity)%js = true /\
  (lit 1 / Math_round (-0.5)%float === neg_infinity)%js = true /\
  (lit 1 / Math_round 0.25%float === infinity)%js = true /\
  (lit 1 / Math_round (-0)%float === neg_infinity)%js = true /\
  (lit 1 / Math_floor (-0)%float === neg_infinity)%js = true /\
  (lit 1 / Math_floor 0.25%float === infinity)%js = true.
Proof. vm_compute. repeat split. Qed.

(* ------------------------------------------------------------------ *)
(** ** The scenarios of the specification *)

(** The scenarios evaluate as the specification lists them, on both
    instances. *)
Example scenarios_exact :
  displays (V1.TipCalculatorApp (scenario_exact_split : State xnum))
    "10" "20" "130" "32.5" "20" = true /\
  displays (V1.TipCalculatorApp (scenario_tax_in_tip : State xnum))
    "10" "22" "132" "33" "20" = true /\
  displays (V1.TipCalculatorApp (scenario_round_per_person : State xnum))
    "0" "10" "60" "20" "20" = true /\
  displays (V1.TipCalculatorApp (scenario_zero_bill : State xnum))
    "0" "0" "0" "0" "0" = true.
Proof. vm_compute. repeat split. Qed.

Example scenarios_binary64 :
  displays (V1.TipCalculatorApp (scenario_exact_split : State float))
    "10" "20" "130" "32.5" "20" = true /\
  displays (V1.TipCalculatorApp (scenario_tax_in_tip : State float))
    "10" "22" "132" "33" "20" = true /\
  displays (V1.TipCalculatorApp (scenario_round_per_person : State float))
    "0" "10" "60" "20" "20" = true /\
  displays (V1.TipCalculatorApp (scenario_zero_bill : State float))
    "0" "0" "0" "0" "0" = true.
Proof. vm_compute. repeat split. Qed.

(* ------------------------------------------------------------------ *)
(** ** The accounting identity *)



(* ------------------------------------------------------------------ *)
(** ** The rounding modes *)





(* ------------------------------------------------------------------ *)
(** ** Signs of the outputs *)


(** On binary64 a product can overflow: with a tax of 1e308 percent the
    first version computes an infinite tax and, the tax being in the tip
    base and the slider at 0, shows [NaN] as tip and total, where the
    second version, which clamps, shows finite numbers. *)
Example binary64_overflow :
  let d1 := V1.TipCalculatorApp (state_overflow : State float) in
  let d2 := V2.TipCalculatorApp (state_overflow : State float) in
  Number_isFinite (taxPercent (state_overflow : State float)) = true /\
  is_infinity (tax d1) = true /\
  is_nan (tip d1) = true /\ is_nan (total d1) = true /\
  Number_isFinite (tax d2) = true /\
  Number_isFinite (tip d2) = true /\ Number_isFinite (total d2) = true.
Proof. vm_compute. repeat split. Qed.


(* ------------------------------------------------------------------ *)
(** ** [Math.round] *)

(** C5, as stated, fails: with the bill "-2.5", no tax, no tip and the
    total rounded, the quantity rounded is -2.5 and the component shows -2,
    on both instances, where rounding half away from zero gives -3. *)
Lemma round_is_not_half_away_from_zero :
  let dx := V1.TipCalculatorApp (state_negative_tie : State xnum) in
  let df := V1.TipCalculatorApp (state_negative_tie : State float) in
  total dx = Math_round (rawTotal dx) /\
  (rawTotal dx === Number "-2.5")%js = true /\
  (total dx === Number "-2")%js = true /\
  round_half_away_from_zero (value (rawTotal dx)) = (-3)%Z /\
  (rawTotal df === Number "-2.5")%js = true /\
  (total df === Number "-2")%js = true.
Proof. vm_compute. repeat split. Qed.

(** C5, amended: the three rounding modes apply [Math.round] to [rawTip],
    [rawTotal] and [rawPerPerson], and [Math.round] rounds half up: on a
    finite [q] it returns an integer [z] with [q - 1/2 < z <= q + 1/2], so
    the nearest integer, a tie going towards plus infinity; for [0 <= q]
    this is rounding half away from zero. *)
Theorem Math_round_half_up (b : string) (tp p tx : Qc) (inc : bool) :
  let app r := V1.TipCalculatorApp (finite_state b tp p tx inc r) in
  tip (app Rounding.tip) = Math_round (rawTip (app Rounding.tip)) /\
  total (app Rounding.total) = Math_round (rawTotal (app Rounding.total)) /\
  perPerson (app Rounding.perPerson) =
    Math_round (rawPerPerson (app Rounding.perPerson)) /\
  forall q : Qc, exists z : Z,
    Math_round (Fin q) = Fin (Zc z) /\
    q - half < Zc z /\ Zc z <= q + half /\
    (0 <= q -> z = round_half_away_from_zero q).
Proof.
  intros app. subst app. cbv beta.
  split; [|split; [|split]].
  1-3: destruct inc; v1_open nb; unfold useMemo_rounding; repeat fin_step;
    reflexivity.
  intros q. exists (Qfloor (q + (1 # 2))). split; [reflexivity|].
  destruct (floor_half_bounds q) as [Hl Hu].
  split; [exact Hl|]. split; [exact Hu|].
  intros Hq. unfold round_half_away_from_zero.
  apply Qle_bool_iff in Hq. change (this 0) with 0%Q in Hq. now rewrite Hq.
Qed.

(* ------------------------------------------------------------------ *)
(** ** [parseToNumber] *)

(** C6, as stated, fails: the regular expression keeps every minus sign,
    not a single leading one, so "-1-2" passes through unchanged and
    resolves to 0, where keeping the leading minus only leaves "-12"; and
    "$12.5x0" does not resolve to 0, on either instance. *)
Lemma parseToNumber_not_as_stated :
  replace_non_numeric "-1-2" = "-1-2" /\
  strip_as_stated true "-1-2" = "-12" /\
  (@parseToNumber xnum _ "-1-2" === lit 0)%js = true /\
  (@parseToNumber xnum _ "-1-2" === Number (strip_as_stated true "-1-2"))%js
    = false /\
  (@parseToNumber float _ "-1-2" === Number (strip_as_stated true "-1-2"))%js
    = false /\
  (@parseToNumber xnum _ "$12.5x0" === lit 0)%js = false /\
  (@parseToNumber float _ "$12.5x0" === lit 0)%js = false.
Proof. vm_compute. repeat split. Qed.

(** C6, amended: [parseToNumber] keeps the digits, the decimal points and
    the minus signs of the text, all of them and in order, and reads what is
    left with [Number]; the result is that number when it is finite and 0
    otherwise, so it is always finite.  "$12.5x0" gives 12.5, and the empty
    text, "--" and "1.2.3" give 0. *)
Theorem parseToNumber_spec (v : string) :
  let cleaned := replace_non_numeric v in
  list_ascii_of_string cleaned =
    List.filter kept_by_regex (list_ascii_of_string v) /\
  @parseToNumber xnum _ v =
    (if Number_isFinite (Number cleaned : xnum) then Number cleaned
     else lit 0) /\
  Number_isFinite (@parseToNumber xnum _ v) = true /\
  (@parseToNumber xnum _ "$12.5x0" === Number "12.5")%js = true /\
  (@parseToNumber xnum _ "" === lit 0)%js = true /\
  (@parseToNumber xnum _ "--" === lit 0)%js = true /\
  (@parseToNumber xnum _ "1.2.3" === lit 0)%js = true.
Proof.
  intros cleaned. subst cleaned.
  split; [apply filter_string_spec|]. split.
  - unfold parseToNumber. destruct v; [reflexivity|].
    cbn [string_falsy]. reflexivity.
  - split; [rewrite parseToNumber_Fin; reflexivity|].
    vm_compute. repeat split.
Qed.

(** The same texts on binary64. *)
Example parseToNumber_binary64 :
  (@parseToNumber float _ "$12.5x0" === 12.5%float)%js = true /\
  (@parseToNumber float _ "" === 0%float)%js = true /\
  (@parseToNumber float _ "--" === 0%float)%js = true /\
  (@parseToNumber float _ "-7.25 USD" === (-7.25)%float)%js = true.
Proof. vm_compute. repeat split. Qed.

(* ------------------------------------------------------------------ *)
(** ** Defaults for invalid input and the number of people *)


(** The same four inputs on binary64. *)
Example people_count_binary64 :
  (safePeople (V1.TipCalculatorApp (state_people "0" : State float))
     === 1%float)%js = true /\
  (safePeople (V1.TipCalculatorApp (state_people "-5" : State float))
     === 1%float)%js = true /\
  (safePeople (V1.TipCalculatorApp (state_people "abc" : State float))
     === 1%float)%js = true /\
  (safePeople (V1.TipCalculatorApp (state_people "2.7" : State float))
     === 2%float)%js = true.
Proof. vm_compute. repeat split. Qed.

(* ------------------------------------------------------------------ *)
(** ** [guessCurrency] *)

(** Every entry of the table is returned as it is. *)
Lemma guessCurrency_table (locale currency : string) :
  In (locale, currency) guessCurrency_map ->
  guessCurrency locale = OwnString currency.
Proof.
  cbn [In guessCurrency_map]. intros H.
  repeat (destruct H as [H|H]; [injection H as <- <-; reflexivity|]).
  contradiction.
Qed.

(** A locale that is neither in the table nor a property name of
    [Object.prototype] gets "USD". *)
Lemma guessCurrency_default (locale : string) :
  own_property guessCurrency_map locale = None ->
  existsb (String.eqb locale) Object_prototype_keys = false ->
  guessCurrency locale = OwnString "USD".
Proof.
  intros Hown Hproto. unfold guessCurrency, get_property.
  now rewrite Hown, Hproto.
Qed.

(** C8: the table part of the claim holds ([guessCurrency_table]), the
    default does not for every locale: "constructor" is not in the table,
    and [map["constructor"]] is the member inherited from
    [Object.prototype], which is truthy, so it is returned instead of
    "USD". *)
Theorem guessCurrency_inherited_key :
  own_property guessCurrency_map "constructor" = None /\
  guessCurrency "constructor" = Inherited "constructor" /\
  guessCurrency "constructor" <> OwnString "USD".
Proof. repeat split. discriminate. Qed.

(* ------------------------------------------------------------------ *)
(** ** The two versions of the component *)




(* ------------------------------------------------------------------ *)
(** ** The effective tip percentage *)



(* ------------------------------------------------------------------ *)
(** * Further properties of the code *)

(** ** More facts on canonical rationals *)

Lemma Zc_inj (a b : Z) : Zc a = Zc b -> a = b.
Proof.
  intros E. apply Qc_eq_iff in E. rewrite !this_Zc in E.
  unfold Qeq in E. cbn in E. lia.
Qed.

Lemma Zc_le_iff (a b : Z) : Zc a <= Zc b <-> (a <= b)%Z.
Proof. rewrite <- Z.leb_le, <- Zc_le. symmetry. apply Qle_bool_iff. Qed.

Lemma Qcmax_r (a b : Qc) : b <= Qcmax a b.
Proof.
  destruct (Qcmax_case a b) as [[H ->]|[H ->]];
    [apply Qcle_refl | now apply Qclt_le_weak].
Qed.

Lemma Qcmin_r_le (a b : Qc) : Qcmin a b <= b.
Proof.
  unfold Qcmin. destruct (Qle_bool a b) eqn:E;
    [now apply Qle_bool_iff in E | apply Qcle_refl].
Qed.

Lemma Qcmin_ge (a b c : Qc) : c <= a -> c <= b -> c <= Qcmin a b.
Proof. intros. unfold Qcmin. now destruct (Qle_bool a b). Qed.

Lemma Qcmax_0_0 : Qcmax 0 0 = 0.
Proof. reflexivity. Qed.

Lemma round_0 : Zc (Qfloor (this 0 + (1 # 2))) = 0.
Proof. reflexivity. Qed.

Lemma Qcdiv_0_l (x : Qc) : 0 / x = 0.
Proof. unfold Qcdiv. apply Qcmult_0_l. Qed.

Lemma Qcminus_0_0 : 0 - 0 = 0.
Proof. reflexivity. Qed.

(** *** Tactics for the goals [v1_open] leaves *)

Ltac zero_simpl :=
  repeat first
    [ rewrite Qcmult_0_l | rewrite Qcmult_0_r | rewrite Qcplus_0_l
    | rewrite Qcplus_0_r | rewrite Qcmax_0_0 | rewrite round_0
    | rewrite Qcdiv_0_l | rewrite Qcminus_0_0 ].

(** Unfolds the second version on a [finite_state]. *)
Ltac v2_open nb :=
  unfold V2.TipCalculatorApp, V2.clamp, Number_MAX_SAFE_INTEGER,
    finite_state;
  cbn [bill tipPercent people taxPercent includeTaxInTip rounding];
  rewrite parseToNumber_Fin;
  match goal with
  | |- context [value (parseToNumber ?b)] =>
      set (nb := value (parseToNumber b))
  end;
  repeat fin_step.

(* ------------------------------------------------------------------ *)
(** ** The computation, first version *)

(** X1: on binary64 and for every state, in the mode [total], [total] is
    [Math.round(rawTotal)], a whole number exactly when [rawTotal] is
    finite; [tip] is [Math.max(0, total - (numBill + tax))] and [perPerson]
    is [total / safePeople], under [===] too unless it is [NaN].  [numBill], [tax], [rawTotal] and [safePeople]
    are what the component reads from its state. *)
Theorem total_mode (st : State float) :
  let d := V1.TipCalculatorApp (setRounding Rounding.total st) in
  numBill d = parseToNumber (bill st) /\
  tax d = Math_max (lit 0) (numBill d * (taxPercent st / lit 100))%js /\
  rawTotal d = (numBill d + tax d + rawTip d)%js /\
  safePeople d =
    Math_max (lit 1) (Math_floor (js_or (people st) (lit 1))) /\
  total d = Math_round (rawTotal d) /\
  Number_isInteger (total d) = Number_isFinite (rawTotal d) /\
  tip d = Math_max (lit 0) (total d - (numBill d + tax d))%js /\
  perPerson d = (total d / safePeople d)%js /\
  (is_nan (perPerson d) = false ->
   (perPerson d === total d / safePeople d)%js = true).
Proof.
  intros d. subst d.
  destruct (derived_inputs (setRounding Rounding.total st))
    as [E1 [E2 [_ [_ [E5 [E6 _]]]]]].
  destruct (total_branch (setRounding Rounding.total st) eq_refl)
    as [B1 [B2 B3]].
  repeat (split; [assumption|]).
  split; [rewrite B1; apply Math_round_isInteger|].
  split; [exact B2|]. split; [exact B3 | now apply eqb_not_nan].
Qed.

(** X4: when the bill parses to 0 (an empty or unreadable text), tax, tip,
    total, share and effective tip percentage are all 0, whatever the
    percentages, the people and the mode. *)
Theorem zero_bill (b : string) (tp p tx : Qc) (inc : bool)
    (r : Rounding.id) :
  let d := V1.TipCalculatorApp (finite_state b tp p tx inc r) in
  (numBill d === lit 0)%js = true ->
  (tax d === lit 0)%js = true /\
  (tip d === lit 0)%js = true /\
  (total d === lit 0)%js = true /\
  (perPerson d === lit 0)%js = true /\
  (effectiveTipPercent d === lit 0)%js = true.
Proof.
  intros d. subst d.
  destruct r, inc; v1_open nb; unfold useMemo_rounding; repeat fin_step;
    fin_proj; rewrite ?Zc_0; rewrite x_eq_Fin; intros E; rewrite E;
    zero_simpl; repeat split.
Qed.

Lemma zero_bill_witness :
  let d := V1.TipCalculatorApp
             (finite_state "" (Zc 18) (Zc 3) (Zc 8) true Rounding.total) in
  (numBill d === lit 0)%js = true /\
  (total d === lit 0)%js = true.
Proof.
  split; [vm_compute; reflexivity|].
  apply (zero_bill "" (Zc 18) (Zc 3) (Zc 8) true Rounding.total).
  vm_compute; reflexivity.
Defined.

(** X7: when the tax is 0, ticking "include tax in tip" changes nothing:
    both settings of the checkbox compute the same record. *)
Theorem tax_free_tip_base (b : string) (tp p tx : Qc) (r : Rounding.id) :
  (tax (V1.TipCalculatorApp (finite_state b tp p tx false r)) === lit 0)%js
    = true ->
  V1.TipCalculatorApp (finite_state b tp p tx true r) =
  V1.TipCalculatorApp (finite_state b tp p tx false r).
Proof.
  destruct r; v1_open nb; unfold useMemo_rounding; repeat fin_step;
    fin_proj; rewrite ?Zc_0, x_eq_Fin; intros E;
    rewrite E, !Qcplus_0_r; reflexivity.
Qed.

Lemma tax_free_tip_base_witness :
  (tax (V1.TipCalculatorApp
          (finite_state "40" (Zc 20) (Zc 2) (Zc (-5)) false Rounding.tip))
     === lit 0)%js = true /\
  V1.TipCalculatorApp
    (finite_state "40" (Zc 20) (Zc 2) (Zc (-5)) true Rounding.tip) =
  V1.TipCalculatorApp
    (finite_state "40" (Zc 20) (Zc 2) (Zc (-5)) false Rounding.tip).
Proof.
  split; [vm_compute; reflexivity|].
  apply (tax_free_tip_base "40" (Zc 20) (Zc 2) (Zc (-5)) Rounding.tip).
  vm_compute; reflexivity.
Defined.

(* ------------------------------------------------------------------ *)
(** ** The computation, second version, and [clamp] *)

(** X11: in the second version, in exact arithmetic, the tax and the raw
    tip lie between 0 and [Number.MAX_SAFE_INTEGER] for every bill text and
    all finite percentages and people. *)
Theorem V2_tax_and_tip_bounded (b : string) (tp p tx : Qc) (inc : bool)
    (r : Rounding.id) :
  let d := V2.TipCalculatorApp (finite_state b tp p tx inc r) in
  nonneg (tax d) /\ x_leb (tax d) Number_MAX_SAFE_INTEGER = true /\
  nonneg (rawTip d) /\ x_leb (rawTip d) Number_MAX_SAFE_INTEGER = true.
Proof.
  intros d. subst d. unfold nonneg.
  destruct r, inc; v2_open nb; unfold useMemo_rounding; repeat fin_step;
    fin_proj; rewrite ?lit_Fin, !x_leb_Fin;
    repeat split;
    first [ apply Qcmin_r_le
          | apply Qcmin_ge;
            [apply Qcmax_r
            | apply Qle_bool_iff; rewrite Zc_le; reflexivity] ].
Qed.

(** X12: for bounds [lo <= hi], [clamp(n, lo, hi)] is a number of
    [[lo, hi]], it is [n] itself when [n] is already in the interval, and
    clamping twice is clamping once. *)
Theorem clamp_spec (n lo hi : Qc) :
  lo <= hi ->
  exists c : Qc,
    V2.clamp (Fin n) (Fin lo) (Fin hi) = Fin c /\
    lo <= c /\ c <= hi /\
    (lo <= n -> n <= hi -> c = n) /\
    V2.clamp (Fin c) (Fin lo) (Fin hi) = Fin c.
Proof.
  intros H. unfold V2.clamp. rewrite x_max_Fin, x_min_Fin.
  eexists. split; [reflexivity|].
  assert (B : lo <= Qcmin (Qcmax n lo) hi /\ Qcmin (Qcmax n lo) hi <= hi).
  { split; [apply Qcmin_ge; [apply Qcmax_r | exact H] | apply Qcmin_r_le]. }
  destruct B as [B1 B2]. split; [exact B1|]. split; [exact B2|]. split.
  - intros H1 H2.
    assert (E : Qcmax n lo = n).
    { destruct (Qcmax_case n lo) as [[Hle ->]|[_ ->]]; [|reflexivity].
      now apply Qcle_antisym. }
    rewrite E. now apply Qcmin_l.
  - rewrite x_max_Fin, x_min_Fin. f_equal.
    set (c := Qcmin (Qcmax n lo) hi) in *.
    assert (E : Qcmax c lo = c).
    { destruct (Qcmax_case c lo) as [[Hle ->]|[_ ->]]; [|reflexivity].
      now apply Qcle_antisym. }
    rewrite E. now apply Qcmin_l.
Qed.

Lemma clamp_spec_witness :
  Zc 0 <= Zc 10 /\
  exists c : Qc,
    V2.clamp (Fin (Zc 25)) (Fin (Zc 0)) (Fin (Zc 10)) = Fin c /\
    c <= Zc 10.
Proof.
  assert (H : Zc 0 <= Zc 10) by (vm_compute; discriminate).
  split; [exact H|].
  destruct (clamp_spec (Zc 25) (Zc 0) (Zc 10) H) as [c [E [_ [Hc _]]]].
  exists c. split; assumption.
Defined.

(** *** [clamp] on binary64 *)

Lemma SFcompare_antisym (x y : spec_float) :
  SFcompare y x = option_map CompOpp (SFcompare x y).
Proof.
  destruct x as [sx|sx| |sx mx ex], y as [sy|sy| |sy my ey]; cbn;
    try reflexivity; try (destruct sx; reflexivity);
    try (destruct sy; reflexivity);
    try (destruct sx, sy; reflexivity).
  change (Pos.compare_cont Eq my mx) with (Pos.compare my mx).
  change (Pos.compare_cont Eq mx my) with (Pos.compare mx my).
  rewrite (Z.compare_antisym ex ey), (Pos.compare_antisym mx my).
  destruct sx, sy; cbn; try reflexivity;
    destruct (ex ?= ey)%Z; cbn; try reflexivity;
    destruct (mx ?= my)%positive; reflexivity.
Qed.

Lemma ltb_leb (x y : float) :
  (x <? y)%float = true -> (x <=? y)%float = true.
Proof.
  rewrite ltb_spec, leb_spec. unfold SFltb, SFleb.
  destruct (SFcompare _ _) as [[]|]; congruence.
Qed.

Lemma not_nan_SF (x : float) : is_nan x = false -> Prim2SF x <> S754_nan.
Proof.
  unfold is_nan. rewrite eqb_spec. intros H E. rewrite E in H. discriminate.
Qed.

Lemma not_lt_leb (x y : float) :
  is_nan x = false -> is_nan y = false ->
  (x <? y)%float = false -> (y <? x)%float = false ->
  (x <=? y)%float = true.
Proof.
  intros Hx Hy. apply not_nan_SF in Hx, Hy.
  rewrite !ltb_spec, leb_spec. unfold SFltb, SFleb.
  rewrite (SFcompare_antisym (Prim2SF x) (Prim2SF y)).
  destruct (SFcompare (Prim2SF x) (Prim2SF y)) as [[]|] eqn:E; cbn;
    try congruence.
  exfalso. destruct (Prim2SF x), (Prim2SF y); cbn in E; congruence.
Qed.

(** For every binary64 number [n], infinities included,
    [clamp(n, 0, Number.MAX_SAFE_INTEGER)] is in the safe range; for [NaN]
    it is [NaN]. *)
Lemma clamp_binary64 (n : float) :
  let c := V2.clamp n (lit 0) Number_MAX_SAFE_INTEGER in
  if is_nan n then is_nan c = true else in_safe_range c = true.
Proof.
  intros c. subst c. unfold in_safe_range.
  change (@lit float _ 0) with 0%float.
  change (@Number_MAX_SAFE_INTEGER float _) with 9007199254740991%float.
  unfold V2.clamp. cbn [Math_min Math_max float_JSNumber].
  unfold f_max. destruct (is_nan n) eqn:Hn; [reflexivity|].
  cbn [orb]. change (is_nan 0) with false. cbv iota.
  destruct (n <? 0)%float eqn:H1; [reflexivity|].
  assert (G : forall x, is_nan x = false ->
            ((0 <=? x)%float = true) ->
            ((0 <=? f_min x 9007199254740991) &&
             (f_min x 9007199254740991 <=? 9007199254740991))%float = true).
  { intros x Hx H0. unfold f_min. rewrite Hx. cbn [orb].
    change (is_nan 9007199254740991) with false. cbv iota.
    destruct (x <? 9007199254740991)%float eqn:H3.
    { rewrite H0. apply ltb_leb. exact H3. }
    destruct (9007199254740991 <? x)%float eqn:H4; [reflexivity|].
    destruct (get_sign x); [|reflexivity].
    rewrite H0. apply not_lt_leb; auto. }
  destruct (0 <? n)%float eqn:H2.
  { apply G; [exact Hn | apply ltb_leb, H2]. }
  destruct (get_sign n); [reflexivity|].
  apply G; [exact Hn|]. apply not_lt_leb; auto.
Qed.

(** X13: on binary64, for every state whatever (any numbers in the fields,
    infinite ones included), the tax and the raw tip of the second version
    lie between 0 and [Number.MAX_SAFE_INTEGER], unless the product that is
    clamped is [NaN], and then they are [NaN]. *)
Theorem V2_binary64_bounds (st : State float) :
  let d := V2.TipCalculatorApp st in
  let t := (numBill d * (taxPercent st / lit 100))%js in
  let r := (tipBase d * (tipPercent st / lit 100))%js in
  (if is_nan t then is_nan (tax d) else in_safe_range (tax d)) = true /\
  (if is_nan r then is_nan (rawTip d) else in_safe_range (rawTip d)) = true.
Proof.
  intros d t r. subst r t d. unfold V2.TipCalculatorApp.
  destruct (useMemo_rounding _ _ _ _ _ _ _) as [[? ?] ?].
  cbn [numBill tax tipBase rawTip].
  split.
  - pose proof (clamp_binary64
                  (parseToNumber (bill st) * (taxPercent st / lit 100))%js)
      as H.
    cbv zeta in H. destruct (is_nan _); exact H.
  - match goal with
    | |- (if is_nan ?x then _ else _) = true =>
        pose proof (clamp_binary64 x) as H
    end.
    cbv zeta in H. destruct (is_nan _); exact H.
Qed.

(* ------------------------------------------------------------------ *)
(** ** The number of people, on binary64 *)

(** [Math.max(1, w)] for a [w] that is not [NaN]. *)
Lemma Math_max_1_cases (w : float) :
  is_nan w = false ->
  (1 <=? f_max 1 w)%float = true /\ (f_max 1 w = 1%float \/ f_max 1 w = w).
Proof.
  intros Hw. unfold f_max. change (is_nan 1) with false. rewrite Hw.
  cbn [orb]. destruct (1 <? w)%float eqn:H1.
  - split; [now apply ltb_leb | now right].
  - split; [|left]; destruct (w <? 1)%float; reflexivity.
Qed.

(** X24: on binary64 and for every state whatever (the people field may
    hold 0, a negative or fractional number, an infinity or [NaN]),
    [safePeople], which is [Math.max(1, Math.floor(people || 1))], is at
    least 1, so it is never [NaN] and no share is a division by zero; and
    it is a whole number when [people] is finite. *)
Theorem safePeople_at_least_one (st : State float) :
  let d := V1.TipCalculatorApp st in
  safePeople d =
    Math_max (lit 1) (Math_floor (js_or (people st) (lit 1))) /\
  (lit 1 <=? safePeople d)%float = true /\
  (Number_isFinite (people st) = true ->
   Number_isInteger (safePeople d) = true).
Proof.
  intros d. subst d.
  destruct (derived_inputs st) as [_ [_ [_ [_ [_ [E _]]]]]].
  split; [exact E|]. rewrite E. clear E.
  change (@lit float _ 1) with 1%float.
  set (y := js_or (people st) 1%float).
  assert (Hy : is_nan y = false).
  { subst y. unfold js_or. cbn [ToBoolean float_JSNumber]. unfold f_truthy.
    destruct (is_nan (people st)) eqn:Hn; [reflexivity|].
    cbn [orb]. destruct (is_zero (people st)); [reflexivity | exact Hn]. }
  destruct (Math_floor_isInteger y) as [Hi Hn].
  assert (Hw : is_nan (Math_floor y) = false) by now rewrite Hn.
  destruct (Math_max_1_cases _ Hw) as [H1 H2].
  split; [exact H1|]. intros Hp.
  cbn [Math_max float_JSNumber].
  destruct H2 as [-> | ->]; [reflexivity|].
  rewrite Hi. subst y. unfold js_or.
  destruct (ToBoolean (people st)); [exact Hp | reflexivity].
Qed.

(* ------------------------------------------------------------------ *)
(** ** Reading the fields *)

Lemma parseToNumber_cleaned_x (v : string) :
  @parseToNumber xnum _ v =
  (if Number_isFinite (Number (replace_non_numeric v) : xnum)
   then Number (replace_non_numeric v) else lit 0).
Proof. unfold parseToNumber. destruct v; reflexivity. Qed.

Lemma parseToNumber_cleaned_f (v : string) :
  @parseToNumber float _ v =
  (if Number_isFinite (Number (replace_non_numeric v) : float)
   then Number (replace_non_numeric v) else lit 0).
Proof. unfold parseToNumber. destruct v; [vm_compute|]; reflexivity. Qed.

(** X14: [parseToNumber] sees only the digits, dots and minus signs of the
    text: two texts that keep the same such characters, in the same order,
    parse to the same number, on exact numbers and on binary64. *)
Theorem parseToNumber_reads_kept_characters_only (v w : string) :
  replace_non_numeric v = replace_non_numeric w ->
  @parseToNumber xnum _ v = parseToNumber w /\
  @parseToNumber float _ v = parseToNumber w.
Proof.
  intros E. rewrite (parseToNumber_cleaned_x v), (parseToNumber_cleaned_x w),
    (parseToNumber_cleaned_f v), (parseToNumber_cleaned_f w), E.
  split; reflexivity.
Qed.

Lemma parseToNumber_reads_kept_characters_only_witness :
  replace_non_numeric "$1,234.50" = replace_non_numeric "1234.50 USD" /\
  @parseToNumber float _ "$1,234.50" = parseToNumber "1234.50 USD".
Proof.
  split; [reflexivity|].
  apply (parseToNumber_reads_kept_characters_only "$1,234.50" "1234.50 USD").
  reflexivity.
Defined.

(** *** The text of a whole number *)

Lemma uint_value_pos (d : Decimal.uint) (p : positive) :
  uint_value (Npos p) d = Npos (Pos.of_uint_acc d p).
Proof.
  revert p. induction d; intros p; cbn [uint_value Pos.of_uint_acc];
    try reflexivity; rewrite <- IHd; f_equal; lia.
Qed.

Lemma uint_value_0 (d : Decimal.uint) : uint_value 0 d = N.of_uint d.
Proof.
  unfold N.of_uint. induction d; cbn [uint_value Pos.of_uint];
    try reflexivity; try exact IHd; cbn [N.mul N.add]; apply uint_value_pos.
Qed.

Lemma scan_digits_uint (d : Decimal.uint) (acc : N) (k : nat) :
  exists k',
    scan_digits 10 acc k
      (list_ascii_of_string (DecimalString.NilEmpty.string_of_uint d)) =
    (uint_value acc d, k', nil) /\
    (k <= k')%nat /\ (d <> Decimal.Nil -> (k < k')%nat).
Proof.
  revert acc k. induction d; intros acc k;
    cbn [DecimalString.NilEmpty.string_of_uint list_ascii_of_string
         uint_value];
    [ exists k; split; [reflexivity | split; [lia | congruence]] | .. ];
    match goal with
    | |- context [scan_digits 10 acc k (?c :: ?l)] =>
        change (scan_digits 10 acc k (c :: l))
          with (scan_digits 10 (acc * 10 + (code c - 48)) (S k) l)
    end;
    match goal with
    | |- context [scan_digits 10 ?a (S k) _] =>
        destruct (IHd a (S k)) as [k' [E [Hk _]]]
    end;
    exists k'; (split; [exact E|]); (split; [lia | intros _; lia]).
Qed.

Lemma uint_nonnil_string (d : Decimal.uint) :
  d <> Decimal.Nil ->
  DecimalString.NilZero.string_of_uint d =
  DecimalString.NilEmpty.string_of_uint d.
Proof. destruct d; [congruence | reflexivity ..]. Qed.

Lemma uint_all_digits (d : Decimal.uint) :
  all_digits
    (list_ascii_of_string (DecimalString.NilEmpty.string_of_uint d)).
Proof.
  induction d; cbn; constructor; try reflexivity; assumption.
Qed.

Lemma digit_not_space (c : ascii) :
  is_digit c = true -> is_StrWhiteSpaceChar c = false.
Proof.
  unfold is_digit, is_StrWhiteSpaceChar, in_range. intros H.
  apply andb_true_iff in H. destruct H as [H1 H2].
  apply N.leb_le in H1, H2.
  repeat (apply orb_false_iff; split);
    [ apply andb_false_iff; right; apply N.leb_gt; lia
    | apply N.eqb_neq; lia | apply N.eqb_neq; lia ].
Qed.

Lemma trim_digits (s : list ascii) : all_digits s -> trim s = s.
Proof.
  intros H. unfold trim.
  assert (D : forall l, all_digits l ->
                        drop_while is_StrWhiteSpaceChar l = l).
  { intros l Hl. destruct Hl as [|c l Hc Hl]; [reflexivity|].
    cbn. now rewrite (digit_not_space c Hc). }
  rewrite (D s H). rewrite D; [apply rev_involutive|].
  apply Forall_rev. exact H.
Qed.

Lemma digit_not_char (n : N) (c : ascii) :
  is_digit c = true -> (n < 48 \/ 57 < n)%N -> is_char n c = false.
Proof.
  unfold is_digit, in_range, is_char. intros H Hn.
  apply andb_true_iff in H. destruct H as [H1 H2].
  apply N.leb_le in H1, H2. apply N.eqb_neq. lia.
Qed.

Lemma NonDecimal_digits (s : list ascii) :
  all_digits s -> NonDecimalIntegerLiteral s = None.
Proof.
  intros H. destruct H as [|z s Hz Hs]; [reflexivity|].
  destruct Hs as [|x s Hx Hs]; [reflexivity|].
  unfold NonDecimalIntegerLiteral.
  rewrite !(digit_not_char _ x Hx) by lia. cbn. now destruct (is_char 48 z).
Qed.

Lemma StrUnsignedDecimalLiteral_digits (d : Decimal.uint) (neg : bool) :
  d <> Decimal.Nil ->
  StrUnsignedDecimalLiteral neg
    (list_ascii_of_string (DecimalString.NilEmpty.string_of_uint d)) =
  LitDecimal neg (N.of_uint d) 0.
Proof.
  intros Hd. unfold StrUnsignedDecimalLiteral.
  destruct (list_eq_dec ascii_dec _ Infinity_chars) as [E|_].
  { exfalso. pose proof (uint_all_digits d) as H. rewrite E in H.
    inversion H as [|? ? Hc _]. discriminate Hc. }
  destruct (scan_digits_uint d 0 0) as [k' [E [_ Hk]]].
  rewrite E, uint_value_0. specialize (Hk Hd).
  destruct k' as [|k']; [lia|]. reflexivity.
Qed.

(** The grammar of [Number(string)] reads the decimal digits of [n] as the
    literal [n]. *)
Lemma Number_of_String_whole (n : N) :
  StringToNumber (String_whole n) = LitDecimal false n 0.
Proof.
  unfold String_whole, StringToNumber.
  assert (Hd : N.to_uint n <> Decimal.Nil).
  { destruct n; [discriminate|]. apply DecimalPos.Unsigned.to_uint_nonnil. }
  rewrite (uint_nonnil_string _ Hd).
  pose proof (uint_all_digits (N.to_uint n)) as Hall.
  pose proof (StrUnsignedDecimalLiteral_digits (N.to_uint n) false Hd)
    as Hlit.
  rewrite (trim_digits _ Hall).
  destruct (list_ascii_of_string _) as [|c s] eqn:Es.
  - exfalso. destruct (N.to_uint n); [congruence | discriminate Es ..].
  - rewrite (NonDecimal_digits _ Hall).
    inversion Hall as [|? ? Hc _]; subst.
    rewrite !(digit_not_char _ c Hc) by lia.
    rewrite Hlit. f_equal. apply DecimalN.Unsigned.of_to.
Qed.

Lemma filter_string_all (f : ascii -> bool) (s : string) :
  Forall (fun c => f c = true) (list_ascii_of_string s) ->
  filter_string f s = s.
Proof.
  induction s as [|c s IH]; cbn; [reflexivity|]. intros H.
  inversion H as [|? ? Hc Hs]; subst. rewrite Hc. f_equal. now apply IH.
Qed.

Lemma String_whole_digits (n : N) :
  all_digits (list_ascii_of_string (String_whole n)).
Proof.
  unfold String_whole. destruct (N.to_uint n) eqn:E;
    try (rewrite <- E; rewrite uint_nonnil_string by congruence;
         apply uint_all_digits).
  cbn. constructor; [reflexivity | constructor].
Qed.

Lemma String_whole_kept (n : N) :
  replace_non_numeric (String_whole n) = String_whole n.
Proof.
  apply filter_string_all. eapply Forall_impl; [|apply String_whole_digits].
  intros c Hc. unfold kept_by_regex. now rewrite Hc.
Qed.

Lemma String_whole_nonempty (n : N) : string_falsy (String_whole n) = false.
Proof.
  pose proof (String_whole_digits n) as H.
  unfold String_whole in *. destruct (N.to_uint n); reflexivity.
Qed.

(** X15: the fields show [String(value)] and read the text back: for a
    whole number [n] up to [Number.MAX_SAFE_INTEGER], whose text is its
    decimal digits, [Number], [parseToNumber] and [safeNumber] (with any
    fallback) read the text of [n] back as [n]. *)
Theorem retyping_a_whole_number (n : N) :
  (n <= 9007199254740991)%N ->
  (forall (num : Type) (J : JSNumber num),
     @Number num J (String_whole n) = @lit num J n) /\
  @parseToNumber xnum _ (String_whole n) = lit n /\
  (forall fallback : xnum, safeNumber (String_whole n) fallback = lit n).
Proof.
  intros _.
  assert (G : forall (num : Type) (J : JSNumber num),
             @Number num J (String_whole n) = @lit num J n).
  { intros num J. unfold Number, lit. now rewrite Number_of_String_whole. }
  split; [exact G|]. split.
  - unfold parseToNumber.
    rewrite String_whole_nonempty, String_whole_kept, G, lit_Fin.
    reflexivity.
  - intros fb. unfold safeNumber. rewrite G, lit_Fin. reflexivity.
Qed.

Lemma retyping_a_whole_number_witness :
  (1234 <= 9007199254740991)%N /\
  @parseToNumber xnum _ (String_whole 1234) = lit 1234.
Proof.
  split; [discriminate|].
  apply (retyping_a_whole_number 1234). discriminate.
Defined.

(** *** White space around a number *)

Lemma drop_while_all (l1 l2 : list ascii) :
  all_space l1 ->
  drop_while is_StrWhiteSpaceChar (l1 ++ l2)%list =
  drop_while is_StrWhiteSpaceChar l2.
Proof.
  induction 1 as [|c l Hc _ IH]; [reflexivity|]. cbn. now rewrite Hc.
Qed.

Lemma drop_while_app (l1 l2 : list ascii) :
  drop_while is_StrWhiteSpaceChar l1 <> nil ->
  drop_while is_StrWhiteSpaceChar (l1 ++ l2)%list =
  (drop_while is_StrWhiteSpaceChar l1 ++ l2)%list.
Proof.
  induction l1 as [|c l IH]; cbn; [congruence|].
  destruct (is_StrWhiteSpaceChar c); [exact IH | reflexivity].
Qed.

Lemma drop_while_nil_all (l : list ascii) :
  drop_while is_StrWhiteSpaceChar l = nil -> all_space l.
Proof.
  induction l as [|c l IH]; cbn; [constructor|].
  destruct (is_StrWhiteSpaceChar c) eqn:E; [|discriminate].
  intros H. constructor; [exact E | exact (IH H)].
Qed.

Lemma trim_surrounding (ws1 l ws2 : list ascii) :
  all_space ws1 -> all_space ws2 -> trim (ws1 ++ l ++ ws2)%list = trim l.
Proof.
  intros H1 H2. unfold trim. rewrite (drop_while_all ws1 _ H1).
  destruct (drop_while is_StrWhiteSpaceChar l) as [|c r] eqn:E.
  - rewrite (drop_while_all l ws2 (drop_while_nil_all l E)).
    replace (drop_while is_StrWhiteSpaceChar ws2) with (@nil ascii);
      [reflexivity|].
    symmetry. rewrite <- (app_nil_r ws2). now rewrite drop_while_all.
  - rewrite drop_while_app by (rewrite E; discriminate).
    rewrite E, rev_app_distr.
    rewrite (drop_while_all (rev ws2) _ (Forall_rev H2)). reflexivity.
Qed.

Lemma list_ascii_app (a b : string) :
  list_ascii_of_string (a ++ b) =
  (list_ascii_of_string a ++ list_ascii_of_string b)%list.
Proof. induction a; cbn; [reflexivity|]. now f_equal. Qed.

(** X16: white space typed before or after the text of the tax or people
    field changes nothing: [Number], hence [safeNumber] with any fallback
    and on every instance, gives what it gives for the text alone. *)
Theorem Number_ignores_surrounding_space (ws1 v ws2 : string) :
  all_space (list_ascii_of_string ws1) ->
  all_space (list_ascii_of_string ws2) ->
  StringToNumber (ws1 ++ v ++ ws2) = StringToNumber v /\
  (forall (num : Type) (J : JSNumber num) (fallback : num),
     @safeNumber num J (ws1 ++ v ++ ws2) fallback =
     @safeNumber num J v fallback).
Proof.
  intros H1 H2.
  assert (E : StringToNumber (ws1 ++ v ++ ws2) = StringToNumber v).
  { unfold StringToNumber. rewrite !list_ascii_app.
    now rewrite trim_surrounding. }
  split; [exact E|]. intros num J fb. unfold safeNumber, Number.
  now rewrite E.
Qed.

Lemma Number_ignores_surrounding_space_witness :
  all_space (list_ascii_of_string " ") /\
  all_space (list_ascii_of_string "  ") /\
  @safeNumber float _ (" " ++ "7.5" ++ "  ") 0%float =
  @safeNumber float _ "7.5" 0%float.
Proof.
  assert (H1 : all_space (list_ascii_of_string " "))
    by (constructor; [reflexivity | constructor]).
  assert (H2 : all_space (list_ascii_of_string "  "))
    by (constructor;
        [reflexivity | constructor; [reflexivity | constructor]]).
  split; [exact H1|]. split; [exact H2|].
  apply (Number_ignores_surrounding_space " " "7.5" "  " H1 H2).
Defined.

(* ------------------------------------------------------------------ *)
(** ** The handlers *)

Lemma handle_ok (e : Event) (st : State xnum) :
  state_ok st -> state_ok (handle e st).
Proof.
  intros [[tx Htx] [p [Hp Hp1]]]. unfold state_ok.
  destruct e; cbn [handle]; unfold setBill, onChange_taxPercent,
    setTaxPercent, setIncludeTaxInTip, onChange_tipPercent, onClick_preset,
    setTipPercent, onChange_people, setPeople, setRounding, reset,
    initial_state; cbn [taxPercent people];
    try (split; [exists tx; assumption | exists p; split; assumption]).
  - rewrite lit_Fin, safeNumber_Fin.
    split; [eexists; reflexivity | exists p; split; assumption].
  - rewrite lit_Fin, safeNumber_Fin, x_max_Fin.
    split; [exists tx; assumption|].
    eexists. split; [reflexivity | apply Qcmax_l].
  - rewrite !lit_Fin. split; [eexists; reflexivity|].
    eexists. split; [reflexivity | apply Qcle_refl].
Qed.

Lemma handle_tip_ok (e : Event) (st : State xnum) :
  well_formed e -> tip_ok st -> tip_ok (handle e st).
Proof.
  intros He [tp [Htp [H0 H40]]]. unfold tip_ok.
  destruct e; cbn [handle well_formed] in *; unfold setBill,
    onChange_taxPercent, setTaxPercent, setIncludeTaxInTip,
    onChange_tipPercent, onClick_preset, setTipPercent, onChange_people,
    setPeople, setRounding, reset, initial_state; cbn [tipPercent];
    try (exists tp; repeat split; assumption).
  - destruct He as [q [Eq [Hq0 Hq40]]]. exists q. repeat split; assumption.
  - rewrite lit_Fin. eexists. split; [reflexivity|].
    change 0 with (Zc 0). rewrite !Zc_le_iff.
    unfold presets in He. cbn [In] in He.
    repeat (destruct He as [<-|He]; [cbn; lia|]). contradiction.
  - rewrite lit_Fin. eexists. split; [reflexivity|].
    change 0 with (Zc 0). rewrite !Zc_le_iff. cbn. lia.
Qed.

(** X17: whatever is typed, moved or clicked, in any order, from the
    initial state: the tax percentage stays a finite number, the number of
    people stays a finite number of at least 1, and [safePeople] is a whole
    number of at least 1. *)
Theorem inputs_stay_valid (events : list Event) :
  let st := run events (initial_state : State xnum) in
  (exists tx, taxPercent st = Fin tx) /\
  (exists p, people st = Fin p /\ 1 <= p) /\
  exists z : Z, (1 <= z)%Z /\
    safePeople (V1.TipCalculatorApp st) = Fin (Zc z).
Proof.
  intros st.
  assert (Hok : state_ok st).
  { subst st. unfold run. rewrite <- fold_left_rev_right.
    induction (rev events) as [|e l IH]; cbn [fold_right].
    - unfold initial_state; cbn [taxPercent people]. rewrite !lit_Fin.
      split; [eexists; reflexivity|].
      eexists. split; [reflexivity | apply Qcle_refl].
    - apply handle_ok, IH. }
  destruct Hok as [Htx [p [Hp Hp1]]].
  split; [exact Htx|]. split; [eauto|].
  exists (safePeople_of p). split; [apply safePeople_of_pos|].
  unfold V1.TipCalculatorApp.
  destruct (useMemo_rounding _ _ _ _ _ _ _) as [[? ?] ?].
  cbn [safePeople]. rewrite Hp. apply safePeople_Fin.
Qed.

(** X18: when the slider reports numbers of its range [0..40] and the
    preset buttons are those of [presets], every state reached from the
    initial one has finite numbers in its three numeric fields, a tip
    percentage in [0..40] and at least one person: the states the theorems
    on [finite_state] speak of are all the states reached. *)
Theorem reachable_states_are_finite (events : list Event) :
  Forall well_formed events ->
  let st := run events (initial_state : State xnum) in
  exists tp p tx : Qc,
    st = finite_state (bill st) tp p tx (includeTaxInTip st) (rounding st) /\
    0 <= tp /\ tp <= Zc 40 /\ 1 <= p.
Proof.
  intros Hwf st.
  assert (Hok : state_ok st /\ tip_ok st).
  { subst st. unfold run. rewrite <- fold_left_rev_right.
    apply Forall_rev in Hwf.
    induction Hwf as [|e l He _ IH]; cbn [fold_right].
    - split.
      + unfold state_ok, initial_state; cbn [taxPercent people].
        rewrite !lit_Fin. split; [eexists; reflexivity|].
        eexists. split; [reflexivity | apply Qcle_refl].
      + unfold tip_ok, initial_state; cbn [tipPercent]. rewrite lit_Fin.
        eexists. split; [reflexivity|].
        change 0 with (Zc 0). rewrite !Zc_le_iff. cbn. lia.
    - destruct IH as [IH1 IH2].
      split; [apply handle_ok, IH1 | apply handle_tip_ok; assumption]. }
  destruct Hok as [[[tx Htx] [p [Hp Hp1]]] [tp [Htp [H0 H40]]]].
  exists tp, p, tx. split; [|repeat split; assumption].
  unfold finite_state. rewrite <- Htx, <- Hp, <- Htp. now destruct st.
Qed.

Lemma reachable_states_are_finite_witness :
  let events := [TypeBill "50"; ClickPreset 20; TypePeople "abc";
                 MoveSlider "12.5"; TypeTax "8"] in
  Forall well_formed events /\
  exists tp p tx : Qc,
    run events (initial_state : State xnum) =
    finite_state "50" tp p tx false Rounding.none.
Proof.
  assert (Hwf : Forall well_formed
                  [TypeBill "50"; ClickPreset 20; TypePeople "abc";
                   MoveSlider "12.5"; TypeTax "8"]).
  { constructor; [exact I|].
    constructor; [do 3 right; left; reflexivity|].
    constructor; [exact I|].
    constructor; [|constructor; [exact I | constructor]].
    exists (Q2Qc (25 # 2)). split.
    - apply (f_equal Fin), Qc_is_canon. reflexivity.
    - split; vm_compute; discriminate. }
  split; [exact Hwf|].
  destruct (reachable_states_are_finite _ Hwf) as [tp [p [tx [E _]]]].
  exists tp, p, tx. exact E.
Defined.

Section FirstVersion.
Context {num : Type} `{JSNumber num}.

Lemma handle_rounding (e : Event) (st : State num) :
  rendered_in_V1 e -> rounding st = Rounding.none ->
  rounding (handle e st) = Rounding.none.
Proof. destruct e; cbn; tauto. Qed.

(** X19: the first version renders no control for the rounding mode, so
    after any events of the controls it does render the mode is still
    [none] and nothing is rounded: [tip = rawTip],
    [total = numBill + tax + tip], [perPerson = total / safePeople], on
    every instance. *)
Theorem V1_never_rounds (events : list Event) :
  Forall rendered_in_V1 events ->
  let st := run events initial_state in
  let d := V1.TipCalculatorApp st in
  rounding st = Rounding.none /\
  tip d = rawTip d /\
  total d = (numBill d + tax d + tip d)%js /\
  perPerson d = (total d / safePeople d)%js.
Proof.
  intros Hr st d.
  assert (E : rounding st = Rounding.none).
  { subst st. unfold run. rewrite <- fold_left_rev_right.
    apply Forall_rev in Hr.
    induction Hr as [|e l He _ IH]; cbn [fold_right]; [reflexivity|].
    now apply handle_rounding. }
  split; [exact E|]. now apply none_branch.
Qed.
End FirstVersion.

Lemma V1_never_rounds_witness :
  let events := [TypeBill "59.90"; ClickPreset 18; TypePeople "3";
                 ClickReset; TypeBill "20"] in
  Forall rendered_in_V1 events /\
  tip (V1.TipCalculatorApp (run events (initial_state : State float))) =
  rawTip (V1.TipCalculatorApp (run events (initial_state : State float))).
Proof.
  assert (Hr : Forall rendered_in_V1
                 [TypeBill "59.90"; ClickPreset 18; TypePeople "3";
                  ClickReset; TypeBill "20"])
    by (repeat (constructor; [exact I|]); constructor).
  split; [exact Hr|].
  exact (proj1 (proj2 (V1_never_rounds _ Hr))).
Defined.

(* ------------------------------------------------------------------ *)
(** ** [guessCurrency], every locale *)

Lemma existsb_eqb_In (t : string) (cl : list string) :
  existsb (String.eqb t) cl = true <-> In t cl.
Proof.
  rewrite existsb_exists. split.
  - intros [u [Hu E]]. apply String.eqb_eq in E. now subst.
  - intros H. exists t. split; [exact H | apply String.eqb_refl].
Qed.

(** X20: for every locale, [guessCurrency] returns one of the eight
    currency codes USD, GBP, CAD, AUD, NZD, INR, JPY, EUR, or else the
    locale is the name of a member of [Object.prototype], is not in the
    table, and that inherited member is what is returned. *)
Theorem guessCurrency_result (locale : string) :
  (exists c, guessCurrency locale = OwnString c /\ In c currency_codes) \/
  (guessCurrency locale = Inherited locale /\
   In locale Object_prototype_keys /\
   own_property guessCurrency_map locale = None).
Proof.
  unfold guessCurrency, get_property, guessCurrency_map.
  cbn [own_property].
  repeat match goal with
  | |- context [if (locale =? ?k)%string then _ else _] =>
      destruct (locale =? k)%string;
      [ left; eexists; split; [reflexivity | cbn; tauto] | ]
  end.
  destruct (existsb (String.eqb locale) Object_prototype_keys) eqn:E.
  - right. split; [reflexivity|]. split; [|reflexivity].
    now apply existsb_eqb_In.
  - left. exists "USD". split; [reflexivity | cbn; tauto].
Qed.

(* ------------------------------------------------------------------ *)
(** ** Class names *)

Lemma filter_truthy_app_falsy (l1 l2 : list ClassValue) (c : ClassValue) :
  ClassValue_truthy c = false ->
  filter ClassValue_truthy (l1 ++ c :: l2)%list =
  filter ClassValue_truthy (l1 ++ l2)%list.
Proof. intros H. rewrite !filter_app. cbn. now rewrite H. Qed.

Lemma string_app_assoc (a b c : string) : (a ++ b) ++ c = a ++ (b ++ c).
Proof. induction a; cbn; [reflexivity|]. now f_equal. Qed.

Lemma join_app (sep : string) (a b : list ClassValue) :
  a <> nil -> b <> nil ->
  join sep (a ++ b)%list = join sep a ++ sep ++ join sep b.
Proof.
  intros Ha Hb. induction a as [|c a IH]; [congruence|].
  destruct a as [|c' a].
  - cbn. destruct b; [congruence | reflexivity].
  - change (join sep ((c :: c' :: a) ++ b)%list)
      with (ClassValue_text c ++ sep ++ join sep ((c' :: a) ++ b)%list).
    rewrite IH by discriminate.
    change (join sep (c :: c' :: a))
      with (ClassValue_text c ++ sep ++ join sep (c' :: a)).
    now rewrite !string_app_assoc.
Qed.

Lemma join_truthy_nonempty (a : list ClassValue) :
  Forall (fun c => ClassValue_truthy c = true) a -> a <> nil ->
  join " " a <> "".
Proof.
  intros H Ha. destruct H as [|c a Hc _]; [congruence|].
  destruct c as [s| | |]; try discriminate Hc.
  destruct s; [discriminate Hc|]. destruct a; discriminate.
Qed.

Lemma filter_truthy_all (l : list ClassValue) :
  Forall (fun c => ClassValue_truthy c = true) (filter ClassValue_truthy l).
Proof. apply Forall_forall. intros c Hc. now apply filter_In in Hc. Qed.

(** X21: [classNames] drops what is falsy and joins the rest with single
    spaces: a falsy argument ([false], [null], [undefined], the empty
    string) anywhere in the list leaves the result unchanged; the result is
    empty exactly when every argument is falsy; and the class string of two
    groups of arguments is the two class strings with one space between,
    or the non-empty one alone. *)
Theorem classNames_spec (l1 l2 : list ClassValue) (c : ClassValue) :
  (ClassValue_truthy c = false ->
   classNames (l1 ++ c :: l2) = classNames (l1 ++ l2)) /\
  (classNames l1 = "" <->
   Forall (fun x => ClassValue_truthy x = false) l1) /\
  classNames (l1 ++ l2) =
    (if string_falsy (classNames l1) then classNames l2
     else if string_falsy (classNames l2) then classNames l1
     else classNames l1 ++ " " ++ classNames l2).
Proof.
  split; [|split].
  - intros H. unfold classNames. now rewrite filter_truthy_app_falsy.
  - unfold classNames. split.
    + intros E. apply Forall_forall. intros x Hx.
      destruct (ClassValue_truthy x) eqn:Ex; [|reflexivity].
      exfalso. apply (join_truthy_nonempty (filter ClassValue_truthy l1));
        [apply filter_truthy_all | | exact E].
      intros En. assert (Hin : In x (filter ClassValue_truthy l1))
        by (apply filter_In; auto).
      rewrite En in Hin. exact Hin.
    + intros H.
      replace (filter ClassValue_truthy l1) with (@nil ClassValue);
        [reflexivity|].
      symmetry. induction H as [|x l Hx _ IH]; [reflexivity|].
      cbn. now rewrite Hx.
  - unfold classNames. rewrite filter_app.
    destruct (filter ClassValue_truthy l1) as [|a1 f1] eqn:E1.
    { reflexivity. }
    assert (N1 : join " " (a1 :: f1) <> "").
    { apply join_truthy_nonempty; [|discriminate].
      rewrite <- E1. apply filter_truthy_all. }
    destruct (join " " (a1 :: f1)) eqn:J1; [congruence|].
    cbn [string_falsy].
    destruct (filter ClassValue_truthy l2) as [|a2 f2] eqn:E2.
    { rewrite app_nil_r. cbn [join string_falsy]. exact J1. }
    assert (N2 : join " " (a2 :: f2) <> "").
    { apply join_truthy_nonempty; [|discriminate].
      rewrite <- E2. apply filter_truthy_all. }
    destruct (join " " (a2 :: f2)) eqn:J2; [congruence|].
    cbn [string_falsy]. rewrite join_app by discriminate.
    now rewrite J1, J2.
Qed.

(** X22: after a click on the preset button [p], the button of preset [q]
    carries the highlighted classes exactly when [q = p], and the plain
    ones exactly when [q <> p]: one button at most is highlighted. *)
Theorem preset_highlight (p q : N) (st : State xnum) :
  let tp := tipPercent (onClick_preset p st) in
  (preset_className tp q =
     "px-3 py-1.5 rounded-full text-sm border bg-slate-900 text-white"
   <-> q = p) /\
  (preset_className tp q =
     "px-3 py-1.5 rounded-full text-sm border bg-white dark:bg-slate-800"
   <-> q <> p).
Proof.
  intros tp. subst tp.
  unfold onClick_preset, setTipPercent, preset_className.
  cbn [tipPercent]. rewrite !lit_Fin.
  destruct (Fin (Zc (Z.of_N p)) === Fin (Zc (Z.of_N q)))%js eqn:E.
  - apply x_eq_Fin, Zc_inj, N2Z.inj in E. subst q.
    split; split; try reflexivity; try discriminate; congruence.
  - assert (Hne : q <> p).
    { intros ->. rewrite (proj2 (x_eq_Fin _ _) eq_refl) in E.
      discriminate. }
    split; split; try reflexivity; try discriminate; congruence.
Qed.

(** X23: after the effect on [dark] has run, the root element has the
    class "dark" exactly when [dark] is true; the other classes of the
    element are untouched, no class is duplicated, and running the effect
    again changes nothing. *)
Theorem dark_class_follows_state (dark : bool) (cl : list string) :
  let cl' := useEffect_dark dark cl in
  (In "dark" cl' <-> dark = true) /\
  (forall t, t <> "dark" -> (In t cl' <-> In t cl)) /\
  (NoDup cl -> NoDup cl') /\
  useEffect_dark dark cl' = cl'.
Proof.
  intros cl'. subst cl'.
  unfold useEffect_dark, classList_add, classList_remove.
  destruct dark.
  - destruct (existsb (String.eqb "dark") cl) eqn:E.
    + rewrite E. apply existsb_eqb_In in E.
      split; [tauto|]. split; [tauto|]. split; [tauto | reflexivity].
    + assert (Hn : ~ In "dark" cl).
      { intros H. apply existsb_eqb_In in H. congruence. }
      assert (Hin : In "dark" (cl ++ ["dark"]))
        by (apply in_or_app; right; left; reflexivity).
      rewrite (proj2 (existsb_eqb_In _ _) Hin).
      split; [tauto|]. split; [|split; [|reflexivity]].
      * intros t Ht. split.
        -- intros H. apply in_app_or in H. destruct H as [H|[H|[]]];
             [exact H | congruence].
        -- intros H. apply in_or_app. now left.
      * intros H. apply NoDup_app; [exact H | repeat constructor; intros [] |].
        intros x Hx [Hd|[]]. subst. contradiction.
  - split; [|split; [|split]].
    + split; [|discriminate]. intros H. apply filter_In in H.
      destruct H as [_ H]. rewrite String.eqb_refl in H. discriminate.
    + intros t Ht. rewrite filter_In. split; [tauto|].
      intros H. split; [exact H|].
      apply negb_true_iff, String.eqb_neq. assumption.
    + apply NoDup_filter.
    + induction cl as [|u cl IH]; [reflexivity|]. cbn.
      destruct (negb (u =? "dark")) eqn:E; cbn; rewrite ?E; now rewrite ?IH.
Qed.
